(** * ROI heads: proposal labeling and the triple-branch mask router

    A shallow embedding of [detectron2/modeling/roi_heads/roi_heads.py]:
    the proposal labeler ([ROIHeads._sample_proposals],
    [ROIHeads.label_and_sample_proposals]), the constructors of
    [StandardROIHeads] and [TripleBranchROIHeads], and the forward pass of
    the triple-branch router with its consistency losses.

    Python exceptions are values of [exn] carried by the [Result] monad;
    integer tensors are lists of [Z], dictionaries of named losses are
    [gmap string _], and the attribute bag of an [Instances] object is an
    association list in insertion order. The numeric backend (sigmoid,
    binary cross entropy, convolution, ROI pooling) and the heads built
    from the registries are collaborators: they enter as type-class
    parameters, and the statements hold for every instance of them. *)

From Stdlib Require Import ZArith QArith Qround.
From stdpp Require Import base gmap strings list.

(** ** Python exceptions and the result monad *)

Inductive exn :=
| IndexError
| KeyError (key : string)
| AttributeError (attr : string)
| UnboundLocalError (var : string)
| AssertionError (msg : string)
| ZeroDivisionError
| NotImplementedError.

Inductive Result (A : Type) :=
| Ok (a : A)
| Raise (e : exn).
Arguments Ok {A} a.
Arguments Raise {A} e.

#[global] Instance Result_ret : MRet Result := fun A a => Ok a.
#[global] Instance Result_bind : MBind Result :=
  fun A B f m => match m with Ok a => f a | Raise e => Raise e end.
#[global] Instance Result_fmap : FMap Result :=
  fun A B f m => match m with Ok a => Ok (f a) | Raise e => Raise e end.

Definition is_Ok {A} (r : Result A) : bool :=
  match r with Ok _ => true | Raise _ => false end.

(** [assert cond, msg]; a statement without a message is given the text of
    its condition. *)
Definition py_assert (cond : bool) (msg : string) : Result unit :=
  if cond then Ok tt else Raise (AssertionError msg).

(** A loop whose body can raise: [for x in l: ys.append(f(x))]. *)
Fixpoint for_each {A B} (f : A → Result B) (l : list A) : Result (list B) :=
  match l with
  | [] => Ok []
  | x :: l' => y ← f x; ys ← for_each f l'; mret (y :: ys)
  end.

(** ** Tensors of integers and torch indexing *)

Module Tensor.
Local Open Scope Z_scope.

(** A torch index [i] into a dimension of size [n]: negative indices count
    from the end, anything outside [-n, n) raises. *)
Definition norm_index (n : nat) (i : Z) : option nat :=
  if 0 <=? i then
    if i <? Z.of_nat n then Some (Z.to_nat i) else None
  else
    if - Z.of_nat n <=? i then Some (Z.to_nat (Z.of_nat n + i)) else None.

Definition get {A} (t : list A) (i : Z) : Result A :=
  match norm_index (length t) i ≫= (t !!.) with
  | Some a => Ok a
  | None => Raise IndexError
  end.

(** [t[idx]] with an index tensor: a fresh tensor, one entry per index. *)
Definition index_select {A} (t : list A) (idx : list Z) : Result (list A) :=
  for_each (get t) idx.

(** [t[mask] = v] with a boolean mask of the shape of [t]. *)
Definition masked_fill {A} (t : list A) (mask : list bool) (v : A)
  : Result (list A) :=
  if decide (length mask = length t)
  then Ok (zip_with (fun (m : bool) x => if m then v else x) mask t)
  else Raise IndexError.

(** [t == c], elementwise. *)
Definition eq_scalar (t : list Z) (c : Z) : list bool :=
  (fun x => x =? c) <$> t.

(** [torch.zeros_like(t) + c] *)
Definition full_like {A} (t : list A) (c : Z) : list Z :=
  replicate (length t) c.
End Tensor.

(** ** Boxes, fields and [Instances] *)

(** A box is [(x1, y1, x2, y2)]. *)
Definition Box : Type := (Q * Q * Q * Q)%type.

Definition zero_box : Box := (0%Q, 0%Q, 0%Q, 0%Q).

(** The values a field of an [Instances] can hold; each is indexable along
    its first axis and has a length. *)
Inductive field :=
| Boxes (tensor : list Box)
| IntTensor (values : list Z)
| FloatTensor (values : list Q)
| BitMasks (masks : list (list bool)).

Definition field_len (v : field) : nat :=
  match v with
  | Boxes t => length t
  | IntTensor t => length t
  | FloatTensor t => length t
  | BitMasks t => length t
  end.

Definition field_index (v : field) (idx : list Z) : Result field :=
  match v with
  | Boxes t => Boxes <$> Tensor.index_select t idx
  | IntTensor t => IntTensor <$> Tensor.index_select t idx
  | FloatTensor t => FloatTensor <$> Tensor.index_select t idx
  | BitMasks t => BitMasks <$> Tensor.index_select t idx
  end.

(** [Instances._fields], in insertion order. *)
Record Instances := mkInstances { get_fields : list (string * field) }.

Module Inst.
Fixpoint lookup (name : string) (fs : list (string * field)) : option field :=
  match fs with
  | [] => None
  | (k, v) :: fs' => if decide (k = name) then Some v else lookup name fs'
  end.

Definition has (x : Instances) (name : string) : bool :=
  bool_decide (is_Some (lookup name (get_fields x))).

(** [x.name]: attribute access on a missing field raises. *)
Definition get (x : Instances) (name : string) : Result field :=
  match lookup name (get_fields x) with
  | Some v => Ok v
  | None => Raise (AttributeError name)
  end.

(** [len(x)]: the length of the first field; an empty bag has no length. *)
Definition len (x : Instances) : Result nat :=
  match get_fields x with
  | [] => Raise NotImplementedError
  | (_, v) :: _ => Ok (field_len v)
  end.

Fixpoint replace (name : string) (v : field) (fs : list (string * field))
  : list (string * field) :=
  match fs with
  | [] => [(name, v)]
  | (k, w) :: fs' =>
      if decide (k = name) then (k, v) :: fs' else (k, w) :: replace name v fs'
  end.

(** [x.set(name, value)]: every field has the length of the others. *)
Definition set (x : Instances) (name : string) (v : field) : Result Instances :=
  match get_fields x with
  | [] => Ok (mkInstances [(name, v)])
  | (_, w) :: _ =>
      _ ← py_assert (bool_decide (field_len w = field_len v))
            "Adding a field of length that differs from the others";
      mret (mkInstances (replace name v (get_fields x)))
  end.

(** [x[idx]]: every field indexed by the same index tensor. *)
Definition index (x : Instances) (idx : list Z) : Result Instances :=
  fs ← for_each (fun kv : string * field =>
                   v ← field_index kv.2 idx; mret (kv.1, v))
                (get_fields x);
  mret (mkInstances fs).

Definition boxes_of (v : field) : Result (list Box) :=
  match v with
  | Boxes t => Ok t
  | _ => Raise (AttributeError "tensor")
  end.

Definition ints_of (v : field) : Result (list Z) :=
  match v with
  | IntTensor t => Ok t
  | _ => Raise (AttributeError "numel")
  end.
End Inst.

(** ** Collaborators of the labeler *)

(** [subsample_labels(labels, num_samples, positive_fraction, bg_label)]
    from [..sampling]: the sampled foreground and background indices. An
    instance stands for the sampler at one state of the random generator. *)
Class Sampling := {
  subsample_labels : list Z → Z → Q → Z → list Z * list Z
}.

(** [pairwise_iou] from the structures package and the [Matcher] object
    built in [ROIHeads.__init__]. *)
Class Matching := {
  iou_matrix : Type;
  pairwise_iou : list Box → list Box → iou_matrix;
  proposal_matcher : iou_matrix → list Z * list Z
}.

(** [add_ground_truth_to_proposals] from the proposal utilities. *)
Class GtAugment := {
  add_ground_truth_to_proposals : list field → list Instances → list Instances
}.

(** ** [ROIHeads]: the attributes read by the labeler *)

Record ROIHeads := mkROIHeads {
  batch_size_per_image : Z;
  positive_sample_fraction : Q;
  num_classes : Z;
  proposal_append_gt : bool
}.

Section Labeler.
Context `{Sampling} `{Matching} `{GtAugment}.
Local Open Scope Z_scope.

(** Lines 209-213 of [_sample_proposals]: the class of the matched target,
    then the background and the ignore sentinels. The indexing makes a
    fresh tensor, so the targets' own [gt_classes] is not written to. *)
Definition resolve_classes (self : ROIHeads)
    (matched_idxs matched_labels gt_classes : list Z) : Result (list Z) :=
  gt_classes ← Tensor.index_select gt_classes matched_idxs;
  gt_classes ← Tensor.masked_fill gt_classes
                 (Tensor.eq_scalar matched_labels 0) (num_classes self);
  Tensor.masked_fill gt_classes (Tensor.eq_scalar matched_labels (-1)) (-1).

(** Lines 214-215: [gt_classes[gt_classes == filter_out_class] = 2]. *)
Definition filter_remap (filter_out_class : Z) (gt_classes : list Z) : list Z :=
  if negb (filter_out_class =? -1)
  then (fun c => if c =? filter_out_class then 2 else c) <$> gt_classes
  else gt_classes.

Definition _sample_proposals (self : ROIHeads)
    (matched_idxs matched_labels gt_classes : list Z) (filter_out_class : Z)
  : Result (list Z * list Z) :=
  let has_gt := bool_decide (0 < length gt_classes)%nat in
  gt_classes ←
    (if has_gt then
       gt_classes ← resolve_classes self matched_idxs matched_labels gt_classes;
       mret (filter_remap filter_out_class gt_classes)
     else
       mret (Tensor.full_like matched_idxs (num_classes self)));
  let '(sampled_fg_idxs, sampled_bg_idxs) :=
    subsample_labels gt_classes (batch_size_per_image self)
      (positive_sample_fraction self) (num_classes self) in
  let sampled_idxs := sampled_fg_idxs ++ sampled_bg_idxs in
  labels ← Tensor.index_select gt_classes sampled_idxs;
  mret (sampled_idxs, labels).
End Labeler.

(** ** [ROIHeads.label_and_sample_proposals] and foreground selection *)

(** A loop that threads an accumulator and can raise. *)
Fixpoint fold_result {A S} (f : S → A → Result S) (l : list A) (s : S)
  : Result S :=
  match l with
  | [] => Ok s
  | x :: l' => s' ← f s x; fold_result f l' s'
  end.

Section LabelAndSample.
Context `{Sampling} `{Matching} `{GtAugment}.

(** Lines 296-299: copy every [gt_] field of the targets that the proposals
    do not have yet, indexed by the matched target of each sample. *)
Definition copy_gt_fields (sampled_targets : list Z)
    (targets_per_image proposals_per_image : Instances) : Result Instances :=
  fold_result
    (fun (p : Instances) (kv : string * field) =>
       let '(trg_name, trg_value) := kv in
       if String.prefix "gt_" trg_name && negb (Inst.has p trg_name)
       then v ← field_index trg_value sampled_targets; Inst.set p trg_name v
       else Ok p)
    (get_fields targets_per_image) proposals_per_image.

(** The body of the loop over the images, lines 274-310. The two scalars
    put into the event storage are telemetry and are left out. *)
Definition label_image (self : ROIHeads) (filter_out_class : Z)
    (proposals_per_image targets_per_image : Instances) : Result Instances :=
  n ← Inst.len targets_per_image;
  let has_gt := bool_decide (0 < n) in
  target_boxes ← Inst.get targets_per_image "gt_boxes" ≫= Inst.boxes_of;
  proposal_boxes ← Inst.get proposals_per_image "proposal_boxes" ≫= Inst.boxes_of;
  let '(matched_idxs, matched_labels) :=
    proposal_matcher (pairwise_iou target_boxes proposal_boxes) in
  target_classes ← Inst.get targets_per_image "gt_classes" ≫= Inst.ints_of;
  '(sampled_idxs, gt_classes) ←
    _sample_proposals self matched_idxs matched_labels target_classes
      filter_out_class;
  p ← Inst.index proposals_per_image sampled_idxs;
  p ← Inst.set p "gt_classes" (IntTensor gt_classes);
  if has_gt then
    sampled_targets ← Tensor.index_select matched_idxs sampled_idxs;
    copy_gt_fields sampled_targets targets_per_image p
  else
    Inst.set p "gt_boxes" (Boxes (replicate (length sampled_idxs) zero_box)).

Definition label_and_sample_proposals (self : ROIHeads)
    (proposals targets : list Instances) (filter_out_class : Z)
  : Result (list Instances) :=
  gt_boxes ← for_each (fun x => Inst.get x "gt_boxes") targets;
  let proposals :=
    if proposal_append_gt self
    then add_ground_truth_to_proposals gt_boxes proposals
    else proposals in
  for_each (fun pt : Instances * Instances =>
              label_image self filter_out_class pt.1 pt.2)
           (zip proposals targets).
End LabelAndSample.

(** [mask.nonzero().squeeze(1)]: the positions where the mask holds. *)
Definition nonzero (mask : list bool) : list Z :=
  (fun ib : nat * bool => Z.of_nat ib.1) <$>
    filter (fun ib : nat * bool => ib.2 = true) (imap (fun i b => (i, b)) mask).

Definition fg_selection_mask (bg_label : Z) (gt_classes : list Z) : list bool :=
  (fun c => negb (c =? -1)%Z && negb (c =? bg_label)%Z) <$> gt_classes.

Definition select_foreground_proposals (proposals : list Instances) (bg_label : Z)
  : Result (list Instances * list (list bool)) :=
  first ← match proposals with [] => Raise IndexError | x :: _ => Ok x end;
  _ ← py_assert (Inst.has first "gt_classes") "proposals[0].has(gt_classes)";
  sel ← for_each
          (fun proposals_per_image =>
             gt_classes ← Inst.get proposals_per_image "gt_classes" ≫= Inst.ints_of;
             let mask := fg_selection_mask bg_label gt_classes in
             p ← Inst.index proposals_per_image (nonzero mask);
             mret (p, mask))
          proposals;
  mret (sel.*1, sel.*2).

(** ** The numeric backend and the modules built from the registries *)

(** Float tensors, boolean tensors and zero-dimensional losses, with the
    torch operations the router applies to them. *)
Class Backend := {
  tensor : Type;
  mask_tensor : Type;
  scalar : Type;
  (** [torch.cat(ts, 1)]: concatenation along the channel axis *)
  cat : list tensor → tensor;
  (** [a * b], elementwise *)
  tmul : tensor → tensor → tensor;
  (** [t.sigmoid()] *)
  sigmoid : tensor → tensor;
  (** [t > c] *)
  gt : tensor → Q → mask_tensor;
  (** [a.logical_xor(b)] *)
  logical_xor : mask_tensor → mask_tensor → mask_tensor;
  (** [m.float()] *)
  float : mask_tensor → tensor;
  (** [F.binary_cross_entropy(input=, target=, reduction="mean")] *)
  binary_cross_entropy : tensor → tensor → scalar;
  (** the product of a loss and a Python float *)
  scale : Q → scalar → scalar
}.

(** What a mask head returns in training: its losses, its logits and its
    intermediate feature; in inference the instances take the place of the
    losses. *)
Definition train_out `{Backend} : Type := (gmap string scalar * tensor * tensor)%type.
Definition infer_out `{Backend} : Type := (list Instances * tensor * tensor)%type.

Class Modules `{Backend} := {
  (** [Conv2d(in, out, 3, 1, 1, activation=F.relu)], registered under a name *)
  Conv2d_relu : Z → Z → string → tensor → tensor;
  (** [self.box_head(self.box_pooler(features, boxes))] *)
  box_features : list tensor → list field → tensor;
  box_predictor : tensor → tensor * tensor;
  (** [FastRCNNOutputs(...)]: its losses, its boxes for the ground-truth
      classes, and its inference under the test thresholds *)
  outputs_losses : tensor → tensor → list Instances → gmap string scalar;
  outputs_predict_boxes_for_gt_classes :
    tensor → tensor → list Instances → list (list Box);
  outputs_inference : tensor → tensor → list Instances → list Instances;
  mask_pooler : list tensor → list field → tensor;
  (** the heads; the whole-mask head takes [guiding_layers] *)
  whole_head_train : tensor → list Instances → bool → train_out;
  whole_head_infer : tensor → list Instances → bool → infer_out;
  overlapping_head_train : tensor → list Instances → train_out;
  overlapping_head_infer : tensor → list Instances → infer_out;
  nonoverlapping_head_train : tensor → list Instances → train_out;
  nonoverlapping_head_infer : tensor → list Instances → infer_out
}.

(** ** Configuration *)

Record ShapeSpec := mkShapeSpec { channels : Z; stride : Z }.

(** The configuration node. An attribute that the default configuration
    does not define is an [option]: [hasattr] is [is_Some]. *)
Record Cfg := mkCfg {
  VIS_PERIOD : Z;
  MASK_ON : bool;
  SEMI : option bool;
  RPN_ATTENTION : option bool;
  BATCH_SIZE_PER_IMAGE : Z;
  POSITIVE_FRACTION : Q;
  NUM_CLASSES : Z;
  PROPOSAL_APPEND_GT : bool;
  IN_FEATURES : list string;
  FOR_NUCLEI : option bool;
  TRAIN_ON_PRED_BOXES : bool;
  CONSIS_LOSS : bool;
  CONSIS_LOSS_MODE : string;
  CONV_DIM : Z;
  PURE_BRANCH : option bool;
  BRANCH_GUIDANCE : option bool;
  HEADS_ATTENTION : option bool;
  REFINEMENT : option bool
}.

Definition hasattr {A} (attribute : option A) : bool :=
  match attribute with Some _ => true | None => false end.

(** [ROIHeads.__init__], for the attributes of [ROIHeads]. *)
Definition ROIHeads_init (cfg : Cfg) : ROIHeads :=
  {| batch_size_per_image := BATCH_SIZE_PER_IMAGE cfg;
     positive_sample_fraction := POSITIVE_FRACTION cfg;
     num_classes := NUM_CLASSES cfg;
     proposal_append_gt := PROPOSAL_APPEND_GT cfg |}.

(** [_init_box_head], the same in both classes. The scales of the pooler
    come first, [1.0 / self.feature_strides[k]] for each input feature in
    turn: a missing level raises [KeyError], a stride of zero
    [ZeroDivisionError]. Then the channel counts of the input features
    must all be equal. The mask heads compute the same scales again, after
    this method has returned, so they cannot fail there. *)
Definition _init_box_head (cfg : Cfg) (input_shape : gmap string ShapeSpec)
  : Result Z :=
  pooler_scales ←
    for_each (fun k => match input_shape !! k with
                       | Some s => if (stride s =? 0)%Z
                                   then Raise ZeroDivisionError
                                   else Ok (1 / inject_Z (stride s))%Q
                       | None => Raise (KeyError k)
                       end) (IN_FEATURES cfg);
  in_channels ←
    for_each (fun f => match input_shape !! f with
                       | Some s => Ok (channels s)
                       | None => Raise (KeyError f)
                       end) (IN_FEATURES cfg);
  _ ← py_assert (bool_decide (length (remove_dups in_channels) = 1)) "in_channels";
  match in_channels with
  | c :: _ => Ok c
  | [] => Raise IndexError
  end.

Record StandardROIHeads := mkStandardROIHeads {
  std_base : ROIHeads;
  std_in_features : list string;
  std_mask_on : bool;
  std_train_on_pred_boxes : bool;
  std_for_nuclei : bool
}.

(** [StandardROIHeads.__init__]; the keypoint head plays no part below. *)
Definition StandardROIHeads_init (cfg : Cfg) (input_shape : gmap string ShapeSpec)
  : Result StandardROIHeads :=
  _ ← _init_box_head cfg input_shape;
  let for_nuclei := false in
  let for_nuclei := if hasattr (FOR_NUCLEI cfg) then true else for_nuclei in
  mret {| std_base := ROIHeads_init cfg;
          std_in_features := IN_FEATURES cfg;
          std_mask_on := MASK_ON cfg;
          std_train_on_pred_boxes := TRAIN_ON_PRED_BOXES cfg;
          std_for_nuclei := for_nuclei |}.

Record TripleBranchROIHeads `{Backend} := mkTripleBranchROIHeads {
  base : ROIHeads;
  in_features : list string;
  vis_period : Z;
  consis_loss : bool;
  consis_loss_mode : string;
  mask_on : bool;
  train_on_pred_boxes : bool;
  for_nuclei : bool;
  semi_supervised : bool;
  pure_branch : bool;
  rpn_attention_tb : bool;
  branch_guidance : bool;
  heads_attention : bool;
  refinement : bool;
  (** the two stacks exist only when [branch_guidance] was set *)
  branch_guidance_conv_overlap : option (list (tensor → tensor));
  branch_guidance_conv_non_overlap : option (list (tensor → tensor))
}.

Section Construction.
Context `{Modules}.
Local Open Scope Z_scope.

(** Lines 1432-1441 and 1445-1454: three layers, the last one back to
    [conv_dims] channels. *)
Definition guidance_stack (conv_dims : Z) (prefix : string)
  : list (tensor → tensor) :=
  let n_features := 2 in
  [ Conv2d_relu (n_features * conv_dims) (n_features * conv_dims) (prefix +:+ "0");
    Conv2d_relu (n_features * conv_dims) (n_features * conv_dims) (prefix +:+ "1");
    Conv2d_relu (n_features * conv_dims) conv_dims (prefix +:+ "2") ].

Definition TripleBranchROIHeads_init (cfg : Cfg)
    (input_shape : gmap string ShapeSpec) : Result TripleBranchROIHeads :=
  _ ← _init_box_head cfg input_shape;
  let for_nuclei := false in
  let for_nuclei := if hasattr (FOR_NUCLEI cfg) then true else for_nuclei in
  let semi_supervised := default false (SEMI cfg) in
  let pure_branch := default false (PURE_BRANCH cfg) in
  let rpn_attention_tb := default false (RPN_ATTENTION cfg) in
  let branch_guidance := default false (BRANCH_GUIDANCE cfg) in
  let heads_attention := default false (HEADS_ATTENTION cfg) in
  let refinement := default true (REFINEMENT cfg) in
  _ ← (if hasattr (REFINEMENT cfg) then
         if negb refinement
         then py_assert branch_guidance
                "refinement cannot be off without branch_guidance"
         else Ok tt
       else Ok tt);
  mret {| base := ROIHeads_init cfg;
          in_features := IN_FEATURES cfg;
          vis_period := VIS_PERIOD cfg;
          consis_loss := CONSIS_LOSS cfg;
          consis_loss_mode := CONSIS_LOSS_MODE cfg;
          mask_on := MASK_ON cfg;
          train_on_pred_boxes := TRAIN_ON_PRED_BOXES cfg;
          for_nuclei := for_nuclei;
          semi_supervised := semi_supervised;
          pure_branch := pure_branch;
          rpn_attention_tb := rpn_attention_tb;
          branch_guidance := branch_guidance;
          heads_attention := heads_attention;
          refinement := refinement;
          branch_guidance_conv_overlap :=
            if branch_guidance
            then Some (guidance_stack (CONV_DIM cfg)
                         "branch_guidance_conv_overlap_layer")
            else None;
          branch_guidance_conv_non_overlap :=
            if branch_guidance
            then Some (guidance_stack (CONV_DIM cfg)
                         "branch_guidance_conv_non_overlap_layer")
            else None |}.
End Construction.

(** ** The forward pass of [TripleBranchROIHeads] *)

(** Reading a local variable that no executed statement has bound. *)
Definition read {A} (var : string) (value : option A) : Result A :=
  match value with
  | Some a => Ok a
  | None => Raise (UnboundLocalError var)
  end.

(** [losses.update(d)]: the entries of [d] replace those of [losses]. *)
Definition update {V} (losses d : gmap string V) : gmap string V := d ∪ losses.

(** The local variables of [forward] when a training invocation returns;
    [None] is a variable that was never bound. *)
Record train_locals `{Backend} := mkTrainLocals {
  unlabeled : bool;
  proposals : list Instances;
  losses : gmap string scalar;
  selected_proposals : list Instances;
  mask_features : tensor;
  triple_branch_whole_attention_mask_loss : option (gmap string scalar);
  triple_branch_whole_attention_mask_logits : option tensor;
  mask_features_for_over_nonover_branches : tensor;
  mask_features_for_over_branches : option tensor;
  mask_features_for_nonover_branches : option tensor;
  triple_branch_overlapping_mask_loss : gmap string scalar;
  triple_branch_overlapping_mask_logits : tensor;
  triple_branch_overlapping_mask_inner_feature : tensor;
  triple_branch_nonoverlapping_mask_loss : gmap string scalar;
  triple_branch_nonoverlapping_mask_logits : tensor;
  triple_branch_nonoverlapping_mask_inner_feature : tensor;
  triple_branch_whole_mask_loss : option (gmap string scalar);
  triple_branch_whole_mask_logits : option tensor
}.

(** The local variables of [forward_with_given_boxes] when it returns. *)
Record infer_locals `{Backend} := mkInferLocals {
  inf_instances : list Instances;
  inf_mask_features : tensor;
  inf_mask_features_for_over_nonover_branches : tensor;
  inf_mask_features_for_over_branches : option tensor;
  inf_mask_features_for_nonover_branches : option tensor;
  inf_whole_mask_logits : option tensor
}.

(** What [forward] returns: the instances, the losses, and the two extra
    values of the [rpn_attention_tb] return statements. *)
Record forward_result `{Backend} := mkForwardResult {
  ret_instances : list Instances;
  ret_losses : gmap string scalar;
  ret_whole_mask_logits : option tensor;
  ret_selected_proposals : option (list Instances)
}.

Section Forward.
Context `{Modules} `{Sampling} `{Matching} `{GtAugment}.
Local Open Scope Z_scope.

(** [for layer in layers: out = layer(x)]: the variable bound by the loop,
    as it stands when the loop ends. *)
Definition last_layer_output (layers : list (tensor → tensor)) (x : tensor)
  : option tensor :=
  fold_left (fun (_ : option tensor) layer => Some (layer x)) layers None.

Definition features_list_of (in_features : list string)
    (features : gmap string tensor) : Result (list tensor) :=
  for_each (fun f => match features !! f with
                     | Some t => Ok t
                     | None => Raise (KeyError f)
                     end) in_features.

(** [self.mask_pooler] is set by the constructor only when [mask_on]. *)
Definition the_mask_pooler (self : TripleBranchROIHeads)
    (features_list : list tensor) (boxes : list field) : Result tensor :=
  if mask_on self then Ok (mask_pooler features_list boxes)
  else Raise (AttributeError "mask_pooler").

Definition the_stack (attr : string) (stack : option (list (tensor → tensor)))
  : Result (list (tensor → tensor)) :=
  match stack with
  | Some layers => Ok layers
  | None => Raise (AttributeError attr)
  end.

(** [_forward_box] in training: the box losses, and the proposals, whose
    boxes the method overwrites when [train_on_pred_boxes]. *)
Definition _forward_box_train (train_on_pred : bool)
    (features_list : list tensor) (proposals : list Instances)
  : Result (gmap string scalar * list Instances) :=
  boxes ← for_each (fun x => Inst.get x "proposal_boxes") proposals;
  let '(pred_class_logits, pred_proposal_deltas) :=
    box_predictor (box_features features_list boxes) in
  proposals ←
    (if train_on_pred then
       for_each (fun pb : Instances * list Box =>
                   Inst.set pb.1 "proposal_boxes" (Boxes pb.2))
         (zip proposals
            (outputs_predict_boxes_for_gt_classes
               pred_class_logits pred_proposal_deltas proposals))
     else mret proposals);
  mret (outputs_losses pred_class_logits pred_proposal_deltas proposals,
        proposals).

Definition _forward_box_infer (features_list : list tensor)
    (proposals : list Instances) : Result (list Instances) :=
  boxes ← for_each (fun x => Inst.get x "proposal_boxes") proposals;
  let '(pred_class_logits, pred_proposal_deltas) :=
    box_predictor (box_features features_list boxes) in
  mret (outputs_inference pred_class_logits pred_proposal_deltas proposals).

(** [cal_triple_branch_consistency_loss], without its visualisation. *)
Definition cal_triple_branch_consistency_loss
    (pred_mask_logits_from_main_branch pred_mask_logits_from_addition : tensor)
  : scalar :=
  binary_cross_entropy pred_mask_logits_from_addition
    pred_mask_logits_from_main_branch.

(** Lines 1757-1768: the [unlabeled] flag and the labeled proposals. The
    attribute [self.unlabeled] is assigned before every read of it. *)
Definition prepare_proposals (self : TripleBranchROIHeads)
    (proposals targets : list Instances) : Result (bool * list Instances) :=
  first ← match targets with [] => Raise IndexError | t :: _ => Ok t end;
  n ← Inst.len first;
  let unlabeled := bool_decide (n = 0%nat) in
  if negb unlabeled then
    if for_nuclei self then
      p ← label_and_sample_proposals (base self) proposals targets 0;
      mret (unlabeled, p)
    else if rpn_attention_tb self then
      p ← label_and_sample_proposals (base self) proposals targets 1;
      mret (unlabeled, p)
    else
      p ← label_and_sample_proposals (base self) proposals targets (-1);
      mret (unlabeled, p)
  else mret (unlabeled, proposals).

(** Lines 1770-1891 for a training invocation, from the pooled features
    to the last update of the losses. *)
Definition forward_heads_train (self : TripleBranchROIHeads)
    (features : gmap string tensor) (unlabeled : bool)
    (proposals : list Instances) : Result train_locals :=
  features_list ← features_list_of (in_features self) features;
  '(losses, proposals) ←
    (if unlabeled then mret (∅, proposals)
     else _forward_box_train (train_on_pred_boxes self) features_list proposals);
  selected_proposals ←
    (if unlabeled then mret proposals
     else fst <$> select_foreground_proposals proposals (num_classes (base self)));
  proposal_boxes ←
    for_each (fun x => Inst.get x "proposal_boxes") selected_proposals;
  mask_features ← the_mask_pooler self features_list proposal_boxes;
  (* the guidance or attention pre-branch *)
  '(losses, attention_loss, attention_logits, for_both, for_over, for_nonover) ←
    (if branch_guidance self then
       let '(attention_loss, attention_logits, inner_feature) :=
         whole_head_train mask_features selected_proposals false in
       let attention_loss :=
         if negb unlabeled then scale (3 # 4) <$> attention_loss
         else attention_loss in
       let losses :=
         if negb unlabeled then update losses attention_loss else losses in
       let for_both := cat ([mask_features] ++ [inner_feature]) in
       overlap ← the_stack "branch_guidance_conv_overlap"
                   (branch_guidance_conv_overlap self);
       let for_over := last_layer_output overlap for_both in
       non_overlap ← the_stack "branch_guidance_conv_non_overlap"
                       (branch_guidance_conv_non_overlap self);
       let for_nonover := last_layer_output non_overlap for_both in
       mret (losses, Some attention_loss, Some attention_logits,
             for_both, for_over, for_nonover)
     else if heads_attention self then
       let '(attention_loss, _, attention) :=
         whole_head_train mask_features selected_proposals false in
       let losses :=
         if unlabeled then losses else update losses attention_loss in
       mret (losses, (if unlabeled then None else Some attention_loss), None,
             tmul mask_features attention, None, None)
     else
       mret (losses, None, None, mask_features, None, None));
  (* the overlapping and the non-overlapping branch *)
  over_in ← (if branch_guidance self
             then read "mask_features_for_over_branches" for_over
             else mret for_both);
  let '(over_loss, over_logits, over_feature) :=
    overlapping_head_train over_in selected_proposals in
  let losses := if unlabeled then losses else update losses over_loss in
  nonover_in ← (if branch_guidance self
                then read "mask_features_for_nonover_branches" for_nonover
                else mret for_both);
  let '(nonover_loss, nonover_logits, nonover_feature) :=
    nonoverlapping_head_train nonover_in selected_proposals in
  let losses := if unlabeled then losses else update losses nonover_loss in
  (* the refinement whole-mask branch *)
  let '(losses, whole_loss, whole_logits) :=
    if refinement self then
      let '(losses, (whole_loss, whole_logits, _)) :=
        if pure_branch self then
          let out := whole_head_train mask_features selected_proposals false in
          (update losses out.1.1, out)
        else
          (losses,
           whole_head_train
             (cat ([mask_features] ++ [over_feature] ++ [nonover_feature]))
             selected_proposals true) in
      if unlabeled then (losses, None, Some whole_logits)
      else (update losses whole_loss, Some whole_loss, Some whole_logits)
    else (losses, None, None) in
  (* the consistency terms *)
  losses ←
    (if branch_guidance self && unlabeled then
       guidance_logits ← read "triple_branch_whole_attention_mask_logits"
                           attention_logits;
       refinement_logits ← read "triple_branch_whole_mask_logits" whole_logits;
       mret (update losses
               {[ "branch_guidance_consistency_loss" :=
                    scale (1 # 10)
                      (binary_cross_entropy
                         (sigmoid (sigmoid guidance_logits))
                         (sigmoid (sigmoid refinement_logits))) ]})
     else mret losses);
  losses ←
    (if consis_loss self then
       triple_branch_consistency_loss ←
         (if bool_decide (consis_loss_mode self = "MX") then
            refinement_logits ← read "triple_branch_whole_mask_logits"
                                  whole_logits;
            let main_input := float (gt (sigmoid refinement_logits) (1 # 2)) in
            let addition_input :=
              float (logical_xor (gt (sigmoid nonover_logits) (1 # 2))
                                 (gt (sigmoid over_logits) (1 # 2))) in
            mret ({[ "loss_triple_branch_consistency" :=
                       scale (1 # 800)
                         (cal_triple_branch_consistency_loss
                            main_input addition_input) ]} : gmap string scalar)
          else Raise (UnboundLocalError "triple_branch_consistency_loss"));
       mret (update losses triple_branch_consistency_loss)
     else mret losses);
  mret {| unlabeled := unlabeled;
          proposals := proposals;
          losses := losses;
          selected_proposals := selected_proposals;
          mask_features := mask_features;
          triple_branch_whole_attention_mask_loss := attention_loss;
          triple_branch_whole_attention_mask_logits := attention_logits;
          mask_features_for_over_nonover_branches := for_both;
          mask_features_for_over_branches := for_over;
          mask_features_for_nonover_branches := for_nonover;
          triple_branch_overlapping_mask_loss := over_loss;
          triple_branch_overlapping_mask_logits := over_logits;
          triple_branch_overlapping_mask_inner_feature := over_feature;
          triple_branch_nonoverlapping_mask_loss := nonover_loss;
          triple_branch_nonoverlapping_mask_logits := nonover_logits;
          triple_branch_nonoverlapping_mask_inner_feature := nonover_feature;
          triple_branch_whole_mask_loss := whole_loss;
          triple_branch_whole_mask_logits := whole_logits |}.
End Forward.

Section ForwardInference.
Context `{Modules} `{Sampling} `{Matching} `{GtAugment}.

(** [forward_with_given_boxes], up to its return statements. *)
Definition forward_with_given_boxes_locals (self : TripleBranchROIHeads)
    (training : bool) (features : gmap string tensor)
    (instances : list Instances) : Result infer_locals :=
  _ ← py_assert (negb training) "not self.training";
  first ← match instances with [] => Raise IndexError | x :: _ => Ok x end;
  _ ← py_assert (Inst.has first "pred_boxes" && Inst.has first "pred_classes")
        "instances[0].has(pred_boxes) and instances[0].has(pred_classes)";
  features_list ← features_list_of (in_features self) features;
  pred_boxes ← for_each (fun x => Inst.get x "pred_boxes") instances;
  mask_features ← the_mask_pooler self features_list pred_boxes;
  '(instances, for_both, for_over, for_nonover) ←
    (if branch_guidance self then
       let '(instances, _, inner_feature) :=
         whole_head_infer mask_features instances false in
       let for_both := cat ([mask_features] ++ [inner_feature]) in
       overlap ← the_stack "branch_guidance_conv_overlap"
                   (branch_guidance_conv_overlap self);
       let for_over := last_layer_output overlap for_both in
       non_overlap ← the_stack "branch_guidance_conv_non_overlap"
                       (branch_guidance_conv_non_overlap self);
       let for_nonover := last_layer_output non_overlap for_both in
       mret (instances, for_both, for_over, for_nonover)
     else if heads_attention self then
       let '(_, _, attention) :=
         whole_head_infer mask_features instances false in
       mret (instances, tmul mask_features attention, None, None)
     else
       mret (instances, mask_features, None, None));
  over_in ← (if branch_guidance self
             then read "mask_features_for_over_branches" for_over
             else mret for_both);
  let '(instances, _, over_feature) :=
    overlapping_head_infer over_in instances in
  nonover_in ← (if branch_guidance self
                then read "mask_features_for_nonover_branches" for_nonover
                else mret for_both);
  let '(instances, _, nonover_feature) :=
    nonoverlapping_head_infer nonover_in instances in
  let '(instances, whole_mask_logits) :=
    if refinement self then
      let '(instances, whole_mask_logits, _) :=
        if pure_branch self then
          whole_head_infer mask_features instances false
        else
          whole_head_infer
            (cat ([mask_features] ++ [over_feature] ++ [nonover_feature]))
            instances true in
      (instances, Some whole_mask_logits)
    else (instances, None) in
  mret {| inf_instances := instances;
          inf_mask_features := mask_features;
          inf_mask_features_for_over_nonover_branches := for_both;
          inf_mask_features_for_over_branches := for_over;
          inf_mask_features_for_nonover_branches := for_nonover;
          inf_whole_mask_logits := whole_mask_logits |}.

(** The locals of a training invocation of [forward]. *)
Definition forward_train_locals (self : TripleBranchROIHeads)
    (features : gmap string tensor) (input_proposals targets : list Instances)
  : Result train_locals :=
  '(unlabeled, labeled) ← prepare_proposals self input_proposals targets;
  forward_heads_train self features unlabeled labeled.

(** [TripleBranchROIHeads.forward]. The finiteness check of the features
    only prints and is left out. *)
Definition forward (self : TripleBranchROIHeads) (training : bool)
    (features : gmap string tensor) (input_proposals targets : list Instances)
  : Result forward_result :=
  if training then
    L ← forward_train_locals self features input_proposals targets;
    if rpn_attention_tb self then
      logits ← read "triple_branch_whole_mask_logits"
                 (triple_branch_whole_mask_logits L);
      mret {| ret_instances := proposals L;
              ret_losses := losses L;
              ret_whole_mask_logits := Some logits;
              ret_selected_proposals := Some (selected_proposals L) |}
    else
      mret {| ret_instances := proposals L;
              ret_losses := losses L;
              ret_whole_mask_logits := None;
              ret_selected_proposals := None |}
  else
    features_list ← features_list_of (in_features self) features;
    pred_instances ← _forward_box_infer features_list input_proposals;
    L ← forward_with_given_boxes_locals self training features pred_instances;
    if rpn_attention_tb self then
      logits ← read "whole_mask_logits" (inf_whole_mask_logits L);
      mret {| ret_instances := inf_instances L;
              ret_losses := ∅;
              ret_whole_mask_logits := Some logits;
              ret_selected_proposals := None |}
    else
      mret {| ret_instances := inf_instances L;
              ret_losses := ∅;
              ret_whole_mask_logits := None;
              ret_selected_proposals := None |}.
End ForwardInference.

(** ** The labeling step of [StandardROIHeads.forward] *)

Section StandardForward.
Context `{Sampling} `{Matching} `{GtAugment}.

(** Lines 622-627: [assert targets], then the labeling call. *)
Definition StandardROIHeads_prepare_proposals (self : StandardROIHeads)
    (proposals targets : list Instances) : Result (list Instances) :=
  _ ← py_assert (bool_decide (targets ≠ [])) "targets";
  if std_for_nuclei self
  then label_and_sample_proposals (std_base self) proposals targets 0
  else label_and_sample_proposals (std_base self) proposals targets (-1).
End StandardForward.

(** ** The collaborators of the labeler, from their specification *)

Module SpecModel.
Local Open Scope Z_scope.

(** Python's [round]: to the nearest integer, ties to the even one. *)
Definition round_half_even (q : Q) : Z :=
  let f := Qfloor q in
  let d := (q - inject_Z f)%Q in
  match (d ?= 1 # 2)%Q with
  | Lt => f
  | Gt => f + 1
  | Eq => if Z.even f then f else f + 1
  end.

Definition positives (labels : list Z) (num_background_value : Z) : list Z :=
  nonzero ((fun l => (0 <=? l) && (l <? num_background_value)) <$> labels).

Definition negatives (labels : list Z) (num_background_value : Z) : list Z :=
  nonzero ((fun l => l =? num_background_value) <$> labels).

(** Modelled from the spec: [subsample_labels] of the sampling module,
    which is not among the sources. Section 4.2: the positives are the
    indices with [0 <= label < num_background_value], the negatives those
    with [label == num_background_value]; at most
    [round(batch_size * positive_fraction)] positives are drawn and the
    batch is filled with negatives; the draw within each pool is without
    replacement. The random source is explicit: [randperm n] is the
    permutation of [0 .. n-1] the generator yields. *)
Definition spec_subsample_labels (randperm : nat → list nat)
    (labels : list Z) (batch_size : Z) (positive_fraction : Q)
    (num_background_value : Z) : list Z * list Z :=
  let positive := positives labels num_background_value in
  let negative := negatives labels num_background_value in
  let num_pos :=
    Z.min (Z.of_nat (length positive))
          (round_half_even (inject_Z batch_size * positive_fraction)%Q) in
  let num_neg := Z.min (Z.of_nat (length negative)) (batch_size - num_pos) in
  let perm1 := take (Z.to_nat num_pos) (randperm (length positive)) in
  let perm2 := take (Z.to_nat num_neg) (randperm (length negative)) in
  (omap (fun i => positive !! i) perm1, omap (fun i => negative !! i) perm2).

Definition area (b : Box) : Q :=
  let '(x1, y1, x2, y2) := b in ((x2 - x1) * (y2 - y1))%Q.

Definition Qmax (a b : Q) : Q := if Qle_bool a b then b else a.
Definition Qmin (a b : Q) : Q := if Qle_bool a b then a else b.

Definition iou (a b : Box) : Q :=
  let '(ax1, ay1, ax2, ay2) := a in
  let '(bx1, by1, bx2, by2) := b in
  let w := Qmax 0 (Qmin ax2 bx2 - Qmax ax1 bx1)%Q in
  let h := Qmax 0 (Qmin ay2 by2 - Qmax ay1 by1)%Q in
  let inter := (w * h)%Q in
  if Qle_bool inter 0 then 0%Q
  else (inter / (area a + area b - inter))%Q.

(** The overlap matrix, stored by column: one column per proposal, one
    entry per target in it. With no target the columns are empty but
    still one per proposal. *)
Definition spec_pairwise_iou (targets proposals : list Box) : list (list Q) :=
  (fun p => (fun t => iou t p) <$> targets) <$> proposals.

(** The largest entry of a column and the first position that holds it. *)
Fixpoint best_match (column : list Q) (i : nat) (best : Q * nat) : Q * nat :=
  match column with
  | [] => best
  | v :: column' =>
      best_match column' (S i) (if Qle_bool v best.1 then best else (v, i))
  end.

(** Modelled from the spec: the [Matcher] call of the matcher module,
    which is not among the sources. Section 4.1: per proposal the
    best-matching target and a label from the two thresholds, [0] below
    [low], [-1] between them, [1] from [high] on; with no target every
    proposal is background and its index is zero. *)
Definition spec_proposal_matcher (low high : Q) (matrix : list (list Q))
  : list Z * list Z :=
  let matches :=
    (fun column : list Q =>
       match column with
       | [] => (0, 0)
       | v :: column' =>
           let '(best, i) := best_match column' 1%nat (v, 0%nat) in
           (Z.of_nat i,
            if Qle_bool low best
            then (if Qle_bool high best then 1 else -1)
            else 0)
       end) <$> matrix in
  (matches.*1, matches.*2).

(** Modelled from the spec: [add_ground_truth_to_proposals] of the
    proposal utilities, which is not among the sources. Section 4.3,
    step 1: the ground-truth boxes are appended to the proposals with a
    zero objectness. *)
Definition spec_add_ground_truth_one (gt_boxes : field) (x : Instances)
  : Instances :=
  match gt_boxes, Inst.lookup "proposal_boxes" (get_fields x),
        Inst.lookup "objectness_logits" (get_fields x) with
  | Boxes gt, Some (Boxes pb), Some (FloatTensor ol) =>
      mkInstances [("proposal_boxes", Boxes (pb ++ gt));
                   ("objectness_logits",
                    FloatTensor (ol ++ replicate (length gt) 0%Q))]
  | _, _, _ => x
  end.

Definition spec_add_ground_truth_to_proposals (gt_boxes : list field)
    (proposals : list Instances) : list Instances :=
  zip_with spec_add_ground_truth_one gt_boxes proposals.
End SpecModel.

(** The generator that yields the identity permutation. *)
#[local] Instance first_come_sampling : Sampling :=
  {| subsample_labels := SpecModel.spec_subsample_labels (fun n => seq 0 n) |}.

(** The matcher with thresholds [0.3] and [0.5]. *)
#[local] Instance threshold_matching : Matching :=
  {| iou_matrix := list (list Q);
     pairwise_iou := SpecModel.spec_pairwise_iou;
     proposal_matcher := SpecModel.spec_proposal_matcher (3 # 10) (1 # 2) |}.

#[local] Instance spec_gt_augment : GtAugment :=
  {| add_ground_truth_to_proposals := SpecModel.spec_add_ground_truth_to_proposals |}.

(** ** A small exact backend for running the router on concrete inputs *)

(** Feature maps of one pixel: a tensor is a list of regions, a region the
    list of its channel values, as rationals. The statements about the
    router hold for every backend; this one serves to evaluate it. *)
Module Fixture.
Definition relu (x : Q) : Q := if Qle_bool x 0 then 0%Q else x.

Definition Qabs (x : Q) : Q := if Qle_bool 0 x then x else (- x)%Q.

Definition Qsum (l : list Q) : Q := Qred (foldr Qplus 0%Q l).

(** In place of the logistic function, which has no rational values but
    at 0, the curve [1/2 + x / (2 (1 + |x|))]: increasing, within (0, 1),
    and [1/2] at [0], so that a threshold at [0.5] tests the sign. *)
Definition squash (x : Q) : Q :=
  Qred ((1 # 2) + x / ((2 # 1) * ((1 # 1) + Qabs x))).

Definition region_cat (ts : list (list (list Q))) : list (list Q) :=
  match ts with
  | [] => []
  | t :: ts' => foldl (zip_with app) t ts'
  end.

(** The mean of [100 |input - target|]: on tensors with values in
    [{0, 1}] this is the binary cross entropy, whose logarithms torch
    clamps at [-100]. *)
Definition mismatch_mean (input target : list (list Q)) : Q :=
  let terms :=
    concat (zip_with (zip_with (fun x t => ((100 # 1) * Qabs (x - t))%Q))
              input target) in
  match terms with
  | [] => 0%Q
  | _ => Qred (Qsum terms / inject_Z (Z.of_nat (length terms)))
  end.

Definition map2 {A B} (f : A → B) (t : list (list A)) : list (list B) :=
  (fun r : list A => f <$> r) <$> t.

Definition zip2 {A B C} (f : A → B → C) (a : list (list A))
    (b : list (list B)) : list (list C) :=
  zip_with (zip_with f) a b.

#[local] Instance backend : Backend :=
  {| tensor := list (list Q);
     mask_tensor := list (list bool);
     scalar := Q;
     cat := region_cat;
     tmul := zip2 (fun a b => Qred (a * b));
     sigmoid := map2 squash;
     gt := fun t c => map2 (fun x => negb (Qle_bool x c)) t;
     logical_xor := zip2 xorb;
     float := map2 (fun b : bool => if b then 1%Q else 0%Q);
     binary_cross_entropy := mismatch_mean;
     scale := fun w v => Qred (w * v) |}.

(** A 3x3 convolution with padding 1 on a one-pixel map only sees its
    centre tap. The kernel here has every centre weight 1 and no bias:
    each output channel is the rectified sum of the input channels. *)
Definition conv_ones (in_channels out_channels : Z) (name : string)
    (x : list (list Q)) : list (list Q) :=
  (fun r => replicate (Z.to_nat out_channels) (relu (Qsum r))) <$> x.

Definition boxes_in (v : field) : list Box :=
  match v with Boxes t => t | _ => [] end.

(** One region per box, one channel: the width of the box. *)
Definition pool_width (features_list : list (list (list Q)))
    (boxes : list field) : list (list Q) :=
  (fun b : Box => let '(x1, _, x2, _) := b in [Qred (x2 - x1)])
    <$> concat (boxes_in <$> boxes).

Definition row_sums (shift : Q) (x : list (list Q)) : list (list Q) :=
  (fun r => [Qred (Qsum r + shift)]) <$> x.

Definition with_masks (name : string) (logits : list (list Q))
    (instances : list Instances) : list Instances :=
  (fun x => mkInstances
              (Inst.replace name
                 (BitMasks ((fun r : list Q =>
                               (fun v => negb (Qle_bool v 0)) <$> r) <$> logits))
                 (get_fields x))) <$> instances.

Definition predicted (x : Instances) : Instances :=
  let boxes := boxes_in (default (Boxes [])
                           (Inst.lookup "proposal_boxes" (get_fields x))) in
  mkInstances [("pred_boxes", Boxes boxes);
               ("pred_classes", IntTensor (replicate (length boxes) 0%Z))].

#[local] Instance modules : Modules :=
  {| Conv2d_relu := conv_ones;
     box_features := pool_width;
     box_predictor := fun t => (t, t);
     outputs_losses := fun _ _ _ =>
       {[ "loss_cls" := (1 # 2)%Q; "loss_box_reg" := (1 # 4)%Q ]};
     outputs_predict_boxes_for_gt_classes := fun _ _ proposals =>
       (fun x => boxes_in (default (Boxes [])
                             (Inst.lookup "proposal_boxes" (get_fields x))))
         <$> proposals;
     outputs_inference := fun _ _ proposals => predicted <$> proposals;
     mask_pooler := pool_width;
     whole_head_train := fun x _ guiding_layers =>
       ({[ (if guiding_layers : bool
            then "loss_triple_branch_whole_mask"
            else "loss_triple_branch_whole_mask_guidance") := (1 # 1)%Q ]},
        row_sums (- (1 # 1)) x, row_sums 0 x);
     whole_head_infer := fun x instances _ =>
       (with_masks "pred_triple_branch_whole_masks"
          (row_sums (- (1 # 1)) x) instances,
        row_sums (- (1 # 1)) x, row_sums 0 x);
     overlapping_head_train := fun x _ =>
       ({[ "loss_triple_branch_overlapping_mask" := (2 # 1)%Q ]},
        row_sums (- (3 # 1)) x, row_sums 0 x);
     overlapping_head_infer := fun x instances =>
       (with_masks "pred_triple_branch_overlapping_masks"
          (row_sums (- (3 # 1)) x) instances,
        row_sums (- (3 # 1)) x, row_sums 0 x);
     nonoverlapping_head_train := fun x _ =>
       ({[ "loss_triple_branch_nonoverlapping_mask" := (3 # 1)%Q ]},
        row_sums (- (2 # 1)) x, row_sums 0 x);
     nonoverlapping_head_infer := fun x instances =>
       (with_masks "pred_triple_branch_nonoverlapping_masks"
          (row_sums (- (2 # 1)) x) instances,
        row_sums (- (2 # 1)) x, row_sums 0 x) |}.

(** A configuration: one feature level, three classes, a batch of four
    proposals per image of which half may be positive; the flags of the
    triple-branch head are the arguments. *)
Definition make_cfg (pure_branch branch_guidance heads_attention
                     refinement : option bool) (consis_loss : bool) : Cfg :=
  {| VIS_PERIOD := 0;
     MASK_ON := true;
     SEMI := None;
     RPN_ATTENTION := None;
     BATCH_SIZE_PER_IMAGE := 4;
     POSITIVE_FRACTION := 1 # 2;
     NUM_CLASSES := 3;
     PROPOSAL_APPEND_GT := false;
     IN_FEATURES := ["p2"];
     FOR_NUCLEI := None;
     TRAIN_ON_PRED_BOXES := false;
     CONSIS_LOSS := consis_loss;
     CONSIS_LOSS_MODE := "MX";
     CONV_DIM := 1;
     PURE_BRANCH := pure_branch;
     BRANCH_GUIDANCE := branch_guidance;
     HEADS_ATTENTION := heads_attention;
     REFINEMENT := refinement |}.

(** The default flags. *)
Definition cfg : Cfg := make_cfg None None None None false.

Definition roi_heads : ROIHeads := ROIHeads_init cfg.

Definition input_shape : gmap string ShapeSpec :=
  {[ "p2" := {| channels := 1; stride := 4 |} ]}.

Definition features : gmap string (list (list Q)) := {[ "p2" := [[1%Q]] ]}.

Definition box (x1 y1 x2 y2 : Z) : Box :=
  (inject_Z x1, inject_Z y1, inject_Z x2, inject_Z y2).

(** Three proposals: one on the second target, one on the first, one
    away from both. *)
Definition image_proposals : Instances :=
  mkInstances [("proposal_boxes",
                Boxes [box 20 20 40 38; box 0 0 10 10; box 50 50 60 60]);
               ("objectness_logits", FloatTensor [1%Q; 1%Q; 1%Q])].

(** Two targets, of classes 0 and 2. *)
Definition image_targets : Instances :=
  mkInstances [("gt_boxes", Boxes [box 0 0 10 10; box 20 20 40 40]);
               ("gt_classes", IntTensor [0%Z; 2%Z])].

(** An image without any target. *)
Definition no_targets : Instances :=
  mkInstances [("gt_boxes", Boxes []); ("gt_classes", IntTensor [])].

(** The heads the constructors build from [make_cfg] with the given flags. *)
Definition router (nuclei pure guidance attention refine consis : bool) : TripleBranchROIHeads :=
  {| base := roi_heads;
     in_features := ["p2"];
     vis_period := 0;
     consis_loss := consis;
     consis_loss_mode := "MX";
     mask_on := true;
     train_on_pred_boxes := false;
     for_nuclei := nuclei;
     semi_supervised := false;
     pure_branch := pure;
     rpn_attention_tb := false;
     branch_guidance := guidance;
     heads_attention := attention;
     refinement := refine;
     branch_guidance_conv_overlap :=
       if guidance
       then Some (guidance_stack 1 "branch_guidance_conv_overlap_layer")
       else None;
     branch_guidance_conv_non_overlap :=
       if guidance
       then Some (guidance_stack 1 "branch_guidance_conv_non_overlap_layer")
       else None |}.

Definition standard_router (nuclei : bool) : StandardROIHeads :=
  {| std_base := roi_heads;
     std_in_features := ["p2"];
     std_mask_on := true;
     std_train_on_pred_boxes := false;
     std_for_nuclei := nuclei |}.
End Fixture.

(** ** Reference points for the statements *)

(** The sequential composition of a stack of layers, each layer consuming
    the output of the one before: what section 4.4 of the specification
    says of the two guidance stacks. *)
Definition sequential {T} (layers : list (T → T)) (x : T) : T :=
  fold_left (fun out layer => layer out) layers x.

(** The configuration with the attribute [FOR_NUCLEI] defined as [value],
    or left undefined. *)
Definition set_FOR_NUCLEI (value : option bool) (cfg : Cfg) : Cfg :=
  {| VIS_PERIOD := VIS_PERIOD cfg;
     MASK_ON := MASK_ON cfg;
     SEMI := SEMI cfg;
     RPN_ATTENTION := RPN_ATTENTION cfg;
     BATCH_SIZE_PER_IMAGE := BATCH_SIZE_PER_IMAGE cfg;
     POSITIVE_FRACTION := POSITIVE_FRACTION cfg;
     NUM_CLASSES := NUM_CLASSES cfg;
     PROPOSAL_APPEND_GT := PROPOSAL_APPEND_GT cfg;
     IN_FEATURES := IN_FEATURES cfg;
     FOR_NUCLEI := value;
     TRAIN_ON_PRED_BOXES := TRAIN_ON_PRED_BOXES cfg;
     CONSIS_LOSS := CONSIS_LOSS cfg;
     CONSIS_LOSS_MODE := CONSIS_LOSS_MODE cfg;
     CONV_DIM := CONV_DIM cfg;
     PURE_BRANCH := PURE_BRANCH cfg;
     BRANCH_GUIDANCE := BRANCH_GUIDANCE cfg;
     HEADS_ATTENTION := HEADS_ATTENTION cfg;
     REFINEMENT := REFINEMENT cfg |}.

(** ** Contracts of the collaborators *)

(** Section 4.2 of the specification: a sampled positive is an index whose
    label lies in [[0, num_background_value)], a sampled negative one whose
    label is [num_background_value]. *)
Class SamplingContract `{Sampling} : Prop := {
  sampled_positive : ∀ labels n pf bg i,
    i ∈ (subsample_labels labels n pf bg).1 →
    (0 ≤ i)%Z ∧ ∃ l, labels !! Z.to_nat i = Some l ∧ (0 ≤ l < bg)%Z;
  sampled_negative : ∀ labels n pf bg i,
    i ∈ (subsample_labels labels n pf bg).2 →
    (0 ≤ i)%Z ∧ labels !! Z.to_nat i = Some bg
}.

Section LabelerPredicates.
Context `{Sampling}.
Implicit Types (self : ROIHeads) (gt_classes : list Z).
Local Open Scope Z_scope.

(** The label vector that is handed to the sampler. *)
Definition class_vector self (matched_idxs matched_labels gt_classes : list Z)
    (filter_out_class : Z) (classes : list Z) : Prop :=
  if bool_decide (0 < length gt_classes)%nat
  then ∃ resolved,
         resolve_classes self matched_idxs matched_labels gt_classes
           = Ok resolved
         ∧ classes = filter_remap filter_out_class resolved
  else classes = Tensor.full_like matched_idxs (num_classes self).

(** The inputs the matcher hands over: valid indices into the targets and
    one label per index, whenever there is a target. *)
Definition match_wf (mi ml gt_classes : list Z) : Prop :=
  gt_classes ≠ [] →
  Forall (fun i => - Z.of_nat (length gt_classes) ≤ i
                   < Z.of_nat (length gt_classes)) mi
  ∧ length ml = length mi.
End LabelerPredicates.

(** Section 4.1 of the specification: the matcher answers with one index
    and one label per proposal. *)
Class MatchingContract `{Matching} : Prop := {
  matched_idxs_length : ∀ targets proposals,
    length (proposal_matcher (pairwise_iou targets proposals)).1 = length proposals;
  matched_labels_length : ∀ targets proposals,
    length (proposal_matcher (pairwise_iou targets proposals)).2 = length proposals
}.

(** The invariant [Instances.set] maintains: every field has [n] entries. *)
Definition inst_wf (x : Instances) (n : nat) : Prop :=
  Forall (fun kv : string * field => field_len kv.2 = n) (get_fields x).

(** A labeled proposal set of [k] proposals that are all background: the
    class of each is [num_classes] and the box of each is zero. *)
Definition all_background (self : ROIHeads) (x : Instances) (k : nat) : Prop :=
  Inst.get x "gt_classes" = Ok (IntTensor (replicate k (num_classes self)))
  ∧ Inst.get x "gt_boxes" = Ok (Boxes (replicate k zero_box))
  ∧ Inst.len x = Ok k
  ∧ inst_wf x k.

(** ** Predicates for the further properties *)

(** The feature levels a configuration names all exist in the input shape,
    none has stride zero, and they have one common channel count. *)
Definition usable_levels (cfg : Cfg) (input_shape : gmap string ShapeSpec)
  : Prop :=
  ∃ c, IN_FEATURES cfg ≠ []
       ∧ Forall (fun f => ∃ s, input_shape !! f = Some s
                               ∧ stride s ≠ 0%Z ∧ channels s = c)
           (IN_FEATURES cfg).

(** ** Further inputs *)

Module Inputs.
Import Fixture.

(** The three proposals of the fixture with labels: one of class 2, one
    ignored, one background (of three classes). *)
Definition labeled_image : Instances :=
  mkInstances [("proposal_boxes",
                Boxes [box 20 20 40 38; box 0 0 10 10; box 50 50 60 60]);
               ("gt_classes", IntTensor [2; -1; 3]%Z)].

(** The heads the constructor builds from the default flags when the
    configuration has [MASK_ON] off. *)
Definition box_only_router : @TripleBranchROIHeads backend :=
  {| base := roi_heads;
     in_features := ["p2"];
     vis_period := 0;
     consis_loss := false;
     consis_loss_mode := "MX";
     mask_on := false;
     train_on_pred_boxes := false;
     for_nuclei := false;
     semi_supervised := false;
     pure_branch := false;
     rpn_attention_tb := false;
     branch_guidance := false;
     heads_attention := false;
     refinement := true;
     branch_guidance_conv_overlap := None;
     branch_guidance_conv_non_overlap := None |}.
End Inputs.

(** * Properties *)

(** ** The result monad and the loops *)

Lemma bind_Ok {A B} (m : Result A) (f : A → Result B) (b : B) :
  m ≫= f = Ok b → ∃ a, m = Ok a ∧ f a = Ok b.
Proof. destruct m as [a|e]; [eauto | discriminate]. Qed.

Lemma fmap_Ok {A B} (f : A → B) (m : Result A) (b : B) :
  f <$> m = Ok b → ∃ a, m = Ok a ∧ b = f a.
Proof. destruct m as [a|e]; cbn; [intros [= <-]; eauto | discriminate]. Qed.

(** Turn a hypothesis [x ← m; k = Ok b] into [m = Ok a] and [k a = Ok b]. *)
Ltac inv_bind H :=
  let a := fresh "a" in
  let Ha := fresh "Ha" in
  apply bind_Ok in H as (a & Ha & H).

Lemma for_each_Forall2 {A B} (f : A → Result B) (l : list A) (ys : list B) :
  for_each f l = Ok ys ↔ Forall2 (fun x y => f x = Ok y) l ys.
Proof.
  revert ys. induction l as [|x l IH]; intros ys; cbn.
  - split; [intros [= <-]; constructor | by inversion 1].
  - split.
    + intros Hb. inv_bind Hb. inv_bind Hb. injection Hb as <-.
      constructor; [done | by apply IH].
    + inversion 1 as [|? y ? ys' Hx Hl]; subst.
      rewrite Hx. cbn. apply IH in Hl. by rewrite Hl.
Qed.

Lemma for_each_length {A B} (f : A → Result B) (l : list A) (ys : list B) :
  for_each f l = Ok ys → length ys = length l.
Proof. intros Hf%for_each_Forall2. symmetry. by eapply Forall2_length. Qed.

Lemma for_each_lookup {A B} (f : A → Result B) (l : list A) (ys : list B)
    (i : nat) (x : A) :
  for_each f l = Ok ys → l !! i = Some x → ∃ y, ys !! i = Some y ∧ f x = Ok y.
Proof.
  intros Hf%for_each_Forall2 Hx.
  destruct (Forall2_lookup_l _ _ _ _ _ Hf Hx) as (y & Hy & Hxy). eauto.
Qed.

Lemma for_each_lookup_r {A B} (f : A → Result B) (l : list A) (ys : list B)
    (i : nat) (y : B) :
  for_each f l = Ok ys → ys !! i = Some y → ∃ x, l !! i = Some x ∧ f x = Ok y.
Proof.
  intros Hf%for_each_Forall2 Hy.
  destruct (Forall2_lookup_r _ _ _ _ _ Hf Hy) as (x & Hx & Hxy). eauto.
Qed.

Lemma for_each_total {A B} (f : A → Result B) (l : list A) :
  Forall (fun x => ∃ y, f x = Ok y) l → ∃ ys, for_each f l = Ok ys.
Proof.
  induction 1 as [|x l [y Hy] _ [ys Hys]]; cbn; [by eexists |].
  rewrite Hy. cbn. rewrite Hys. by eexists.
Qed.

(** ** Torch indexing *)

Lemma norm_index_Some (n : nat) (i : Z) (k : nat) :
  Tensor.norm_index n i = Some k → (k < n)%nat.
Proof.
  unfold Tensor.norm_index. intros Hn.
  repeat case_match; simplify_eq; lia.
Qed.

Lemma norm_index_nonneg (n : nat) (i : Z) :
  (0 ≤ i < Z.of_nat n)%Z → Tensor.norm_index n i = Some (Z.to_nat i).
Proof.
  intros Hi. unfold Tensor.norm_index.
  destruct (Z.leb_spec 0 i); [|lia]. destruct (Z.ltb_spec i (Z.of_nat n)); [done|lia].
Qed.

Lemma get_nonneg {A} (t : list A) (i : Z) (a : A) :
  (0 ≤ i)%Z → t !! Z.to_nat i = Some a → Tensor.get t i = Ok a.
Proof.
  intros Hi Ha. unfold Tensor.get.
  rewrite norm_index_nonneg; [cbn; by rewrite Ha|].
  apply lookup_lt_Some in Ha. lia.
Qed.

Lemma get_Ok_elem_of {A} (t : list A) (i : Z) (a : A) :
  Tensor.get t i = Ok a → a ∈ t.
Proof.
  unfold Tensor.get. destruct (Tensor.norm_index _ _) as [k|]; cbn; [|done].
  destruct (t !! k) eqn:Hk; [|done]. intros [= <-].
  by eapply list_elem_of_lookup_2.
Qed.

Lemma index_select_elem_of {A} (t : list A) (idx : list Z) (out : list A) :
  Tensor.index_select t idx = Ok out → Forall (fun a => a ∈ t) out.
Proof.
  intros Hs. apply Forall_lookup. intros j a Ha.
  destruct (for_each_lookup_r _ _ _ _ _ Hs Ha) as (i & _ & Hg).
  by eapply get_Ok_elem_of.
Qed.

Lemma masked_fill_Ok {A} (t : list A) (mask : list bool) (v : A) (out : list A) :
  Tensor.masked_fill t mask v = Ok out →
  length mask = length t ∧
  out = zip_with (fun (m : bool) x => if m then v else x) mask t.
Proof. unfold Tensor.masked_fill. case_decide; [by intros [= <-] | done]. Qed.

Lemma get_total {A} (t : list A) (i : Z) :
  (- Z.of_nat (length t) ≤ i < Z.of_nat (length t))%Z → ∃ a, Tensor.get t i = Ok a.
Proof.
  intros Hi. unfold Tensor.get, Tensor.norm_index.
  destruct (Z.leb_spec 0 i).
  - destruct (Z.ltb_spec i (Z.of_nat (length t))); [|lia]. cbn.
    destruct (lookup_lt_is_Some_2 t (Z.to_nat i)) as [a ->]; [lia | by eexists].
  - destruct (Z.leb_spec (- Z.of_nat (length t)) i); [|lia]. cbn.
    destruct (lookup_lt_is_Some_2 t (Z.to_nat (Z.of_nat (length t) + i)))
      as [a ->]; [lia | by eexists].
Qed.

Lemma index_select_total {A} (t : list A) (idx : list Z) :
  Forall (fun i => - Z.of_nat (length t) ≤ i < Z.of_nat (length t))%Z idx →
  ∃ out, Tensor.index_select t idx = Ok out.
Proof.
  intros Hidx. apply for_each_total.
  eapply Forall_impl; [exact Hidx|]. intros i Hi. by apply get_total.
Qed.

Lemma index_select_length {A} (t : list A) (idx : list Z) (out : list A) :
  Tensor.index_select t idx = Ok out → length out = length idx.
Proof. apply for_each_length. Qed.

(** ** The sampler contract *)

Lemma elem_of_nonzero (mask : list bool) (i : Z) :
  i ∈ nonzero mask ↔ (0 ≤ i)%Z ∧ mask !! Z.to_nat i = Some true.
Proof.
  unfold nonzero. rewrite list_elem_of_fmap. split.
  - intros ([k b] & -> & Hin). cbn.
    apply list_elem_of_filter in Hin as [Hb Hin]. cbn in Hb. subst b.
    apply list_elem_of_lookup in Hin as [j Hj].
    rewrite list_lookup_imap in Hj.
    destruct (mask !! j) eqn:Hm; cbn in Hj; [|done]. injection Hj as <- <-.
    split; [lia|]. by rewrite Nat2Z.id.
  - intros [Hi Hm]. exists (Z.to_nat i, true). split; [cbn; lia|].
    apply list_elem_of_filter. split; [done|].
    apply list_elem_of_lookup. exists (Z.to_nat i).
    rewrite list_lookup_imap, Hm. done.
Qed.

Lemma spec_subsample_labels_contract (randperm : nat → list nat) :
  @SamplingContract
    {| subsample_labels := SpecModel.spec_subsample_labels randperm |}.
Proof.
  split; intros labels n pf bg i; cbn; unfold SpecModel.spec_subsample_labels;
    cbn; intros Hi; apply list_elem_of_omap in Hi as (k & _ & Hk);
    apply list_elem_of_lookup_2 in Hk;
    apply elem_of_nonzero in Hk as [Hi Hk]; (split; [done|]);
    rewrite list_lookup_fmap in Hk;
    destruct (labels !! Z.to_nat i) as [l|] eqn:Hl; cbn in Hk; [|done| |done];
    injection Hk as Hk.
  - exists l. split; [done|]. apply andb_true_iff in Hk as [H1 H2]. lia.
  - f_equal. lia.
Qed.

(** ** [_sample_proposals] *)

Section SampleProposals.
Context `{Sampling}.
Implicit Types (self : ROIHeads) (gt_classes labels idxs : list Z).
Local Open Scope Z_scope.

Lemma sample_proposals_Ok self mi ml gt_classes c idxs labels :
  _sample_proposals self mi ml gt_classes c = Ok (idxs, labels) →
  ∃ classes,
    class_vector self mi ml gt_classes c classes
    ∧ idxs = (subsample_labels classes (batch_size_per_image self)
                (positive_sample_fraction self) (num_classes self)).1
             ++ (subsample_labels classes (batch_size_per_image self)
                   (positive_sample_fraction self) (num_classes self)).2
    ∧ Tensor.index_select classes idxs = Ok labels.
Proof.
  unfold _sample_proposals, class_vector. intros Hs.
  apply bind_Ok in Hs as (classes & Hc & Hs). exists classes.
  destruct (subsample_labels _ _ _ _) as [fg bg] eqn:Hsub. cbn.
  apply bind_Ok in Hs as (out & Hsel & [= <- <-]).
  split; [|done].
  case_bool_decide.
  - apply bind_Ok in Hc as (resolved & Hr & [= <-]). eauto.
  - by injection Hc as <-.
Qed.

Lemma resolve_classes_total self mi ml gt_classes :
  Forall (fun i => - Z.of_nat (length gt_classes) ≤ i
                   < Z.of_nat (length gt_classes)) mi →
  length ml = length mi →
  ∃ resolved, resolve_classes self mi ml gt_classes = Ok resolved
              ∧ length resolved = length mi.
Proof.
  intros Hmi Hlen. unfold resolve_classes.
  destruct (index_select_total gt_classes mi Hmi) as [sel Hsel].
  rewrite Hsel. cbn. apply index_select_length in Hsel.
  unfold Tensor.masked_fill, Tensor.eq_scalar.
  rewrite !length_fmap.
  rewrite decide_True by congruence. cbn.
  rewrite decide_True by (rewrite length_zip_with, length_fmap; lia).
  eexists. split; [done|].
  rewrite !length_zip_with, !length_fmap. lia.
Qed.

Lemma filter_remap_length c gt_classes :
  length (filter_remap c gt_classes) = length gt_classes.
Proof. unfold filter_remap. case_match; [by rewrite length_fmap | done]. Qed.

Lemma sample_proposals_total `{!SamplingContract} self mi ml gt_classes c :
  match_wf mi ml gt_classes →
  ∃ idxs labels, _sample_proposals self mi ml gt_classes c = Ok (idxs, labels).
Proof.
  intros Hwf. unfold _sample_proposals.
  assert (∃ classes,
    (if bool_decide (0 < length gt_classes)%nat
     then gt ← resolve_classes self mi ml gt_classes; mret (filter_remap c gt)
     else mret (Tensor.full_like mi (num_classes self))) = Ok classes)
    as [classes ->].
  { case_bool_decide as Hgt; [|by eexists].
    assert (gt_classes ≠ []) as Hne
      by (destruct gt_classes; [cbn in Hgt; lia | done]).
    destruct (Hwf Hne) as [Hmi Hlen].
    destruct (resolve_classes_total self mi ml gt_classes Hmi Hlen)
      as (r & -> & _). by eexists. }
  cbn. destruct (subsample_labels _ _ _ _) as [fg bg] eqn:Hsub.
  destruct (index_select_total classes (fg ++ bg)) as [out Hout].
  - apply Forall_forall. intros i Hi.
    assert (0 ≤ i ∧ ∃ l, classes !! Z.to_nat i = Some l) as [Hi0 [l Hl]].
    { apply elem_of_app in Hi as [Hi|Hi].
      - destruct (sampled_positive classes (batch_size_per_image self)
                    (positive_sample_fraction self) (num_classes self) i)
          as [? (l & ? & _)]; [by rewrite Hsub | eauto].
      - destruct (sampled_negative classes (batch_size_per_image self)
                    (positive_sample_fraction self) (num_classes self) i)
          as [? ?]; [by rewrite Hsub | eauto]. }
    apply lookup_lt_Some in Hl. lia.
  - rewrite Hout. cbn. eauto.
Qed.

Lemma sample_proposals_labels `{!SamplingContract} self mi ml gt_classes c
    idxs labels :
  _sample_proposals self mi ml gt_classes c = Ok (idxs, labels) →
  Forall (fun l => 0 ≤ l < num_classes self ∨ l = num_classes self) labels.
Proof.
  intros (classes & _ & Hidx & Hsel)%sample_proposals_Ok.
  apply Forall_lookup. intros j l Hl.
  destruct (for_each_lookup_r _ _ _ _ _ Hsel Hl) as (i & Hi & Hget).
  apply list_elem_of_lookup_2 in Hi. rewrite Hidx in Hi.
  apply elem_of_app in Hi as [Hi|Hi].
  - apply sampled_positive in Hi as [Hi0 (l' & Hl' & Hrange)].
    rewrite (get_nonneg _ _ _ Hi0 Hl') in Hget. injection Hget as <-. by left.
  - apply sampled_negative in Hi as [Hi0 Hl'].
    rewrite (get_nonneg _ _ _ Hi0 Hl') in Hget. injection Hget as <-. by right.
Qed.
End SampleProposals.

Lemma get_fmap {A B} (f : A → B) (t : list A) (i : Z) :
  Tensor.get (f <$> t) i = f <$> Tensor.get t i.
Proof.
  unfold Tensor.get. rewrite length_fmap.
  destruct (Tensor.norm_index _ _) as [k|]; cbn; [|done].
  rewrite list_lookup_fmap. by destruct (t !! k).
Qed.

Section FilterRemap.
Context `{Sampling}.
Implicit Types (self : ROIHeads) (gt_classes labels idxs : list Z).
Local Open Scope Z_scope.

Lemma filter_remap_enabled c gt_classes :
  c ≠ -1 →
  filter_remap c gt_classes = (fun x => if x =? c then 2 else x) <$> gt_classes.
Proof.
  intros Hc. unfold filter_remap.
  destruct (Z.eqb_spec c (-1)); [done | reflexivity].
Qed.

(** C3, as amended: with [filter_out_class = c], [c] neither [-1] nor
    [2], and at least one target, no sampled proposal is labeled [c]; and
    for every [c] other than [-1], a sampled proposal whose class after
    the background and ignore overwrites is [c] is labeled [2]. *)
Theorem filter_class_remapped self mi ml gt_classes c idxs labels :
  c ≠ -1 →
  gt_classes ≠ [] →
  _sample_proposals self mi ml gt_classes c = Ok (idxs, labels) →
  (c ≠ 2 → Forall (fun l => l ≠ c) labels)
  ∧ ∃ resolved,
      resolve_classes self mi ml gt_classes = Ok resolved
      ∧ length labels = length idxs
      ∧ ∀ j i, idxs !! j = Some i →
               Tensor.get resolved i = Ok c → labels !! j = Some 2.
Proof.
  intros Hc Hgt (classes & Hcv & _ & Hsel)%sample_proposals_Ok.
  unfold class_vector in Hcv.
  rewrite bool_decide_true in Hcv by (destruct gt_classes; [done | cbn; lia]).
  destruct Hcv as (resolved & Hres & ->).
  rewrite filter_remap_enabled in Hsel by done.
  split.
  - intros Hc2. apply index_select_elem_of in Hsel.
    eapply Forall_impl; [exact Hsel|]. cbn. intros l Hl.
    apply list_elem_of_fmap in Hl as (x & -> & _).
    destruct (Z.eqb_spec x c); congruence.
  - exists resolved. split; [done|].
    split; [by apply index_select_length in Hsel|].
    intros j i Hi Hget.
    destruct (for_each_lookup _ _ _ _ _ Hsel Hi) as (l & Hl & Hgl).
    rewrite get_fmap, Hget in Hgl. cbn in Hgl.
    rewrite Z.eqb_refl in Hgl. by injection Hgl as <-.
Qed.

(** C8: with a sampler that meets its contract, the labels that
    [_sample_proposals] returns lie in [[0, num_classes)] or equal
    [num_classes], and none is the ignore sentinel [-1]; on the match
    results of a matcher the call does return. *)
Theorem sampled_labels_exhaustive `{!SamplingContract} self mi ml gt_classes c :
  0 ≤ num_classes self →
  (match_wf mi ml gt_classes →
   ∃ idxs labels, _sample_proposals self mi ml gt_classes c = Ok (idxs, labels))
  ∧ ∀ idxs labels,
      _sample_proposals self mi ml gt_classes c = Ok (idxs, labels) →
      length labels = length idxs
      ∧ Forall (fun l => (0 ≤ l < num_classes self ∨ l = num_classes self)
                         ∧ l ≠ -1) labels.
Proof.
  intros Hnc. split; [apply sample_proposals_total; done|].
  intros idxs labels Hs. split.
  - apply sample_proposals_Ok in Hs as (classes & _ & _ & Hsel).
    by apply index_select_length in Hsel.
  - eapply Forall_impl; [by eapply sample_proposals_labels|].
    cbn. intros l Hl. split; [done | lia].
Qed.
End FilterRemap.

(** ** Fields of an [Instances] *)

Lemma lookup_replace_eq name v fs : Inst.lookup name (Inst.replace name v fs) = Some v.
Proof.
  induction fs as [|[k w] fs IH]; cbn.
  - by rewrite decide_True.
  - destruct (decide (k = name)) as [->|Hne]; cbn.
    + by rewrite decide_True.
    + by rewrite decide_False.
Qed.

Lemma lookup_replace_ne name name' v fs :
  name ≠ name' →
  Inst.lookup name' (Inst.replace name v fs) = Inst.lookup name' fs.
Proof.
  intros Hne. induction fs as [|[k w] fs IH]; cbn.
  - by rewrite decide_False.
  - destruct (decide (k = name)) as [->|Hk]; cbn.
    + by rewrite !decide_False.
    + destruct (decide (k = name')); [done | exact IH].
Qed.

Lemma replace_wf name v fs n :
  Forall (fun kv : string * field => field_len kv.2 = n) fs →
  field_len v = n →
  Forall (fun kv : string * field => field_len kv.2 = n) (Inst.replace name v fs).
Proof.
  intros Hfs Hv. induction Hfs as [|[k w] fs Hw Hfs IH]; cbn.
  - by repeat constructor.
  - destruct (decide (k = name)); constructor; done.
Qed.

Lemma lookup_wf x n name v :
  inst_wf x n → Inst.lookup name (get_fields x) = Some v → field_len v = n.
Proof.
  unfold inst_wf. induction 1 as [|[k w] fs Hw _ IH]; cbn; [done|].
  destruct (decide (k = name)); [by intros [= <-] | exact IH].
Qed.

Lemma get_Ok x name v :
  Inst.get x name = Ok v ↔ Inst.lookup name (get_fields x) = Some v.
Proof.
  unfold Inst.get. destruct (Inst.lookup _ _); split; intros Hx; by simplify_eq.
Qed.

Lemma set_Ok x name v n :
  inst_wf x n → field_len v = n →
  ∃ y, Inst.set x name v = Ok y
       ∧ inst_wf y n
       ∧ Inst.get y name = Ok v
       ∧ ∀ name', name ≠ name' → Inst.get y name' = Inst.get x name'.
Proof.
  intros Hx Hv. unfold Inst.set.
  destruct x as [fs]. cbn. destruct fs as [|[k w] fs].
  - eexists. split; [done|]. split; [by repeat constructor|].
    unfold Inst.get. cbn. rewrite decide_True by done. split; [done|].
    intros name' Hne. by rewrite decide_False.
  - assert (field_len w = field_len v) as Hw.
    { inversion Hx; subst. cbn in *. congruence. }
    rewrite bool_decide_true by done.
    exists (mkInstances (Inst.replace name v ((k, w) :: fs))).
    split; [reflexivity|].
    split; [by apply (replace_wf name v ((k, w) :: fs))|].
    unfold Inst.get. cbn [get_fields].
    rewrite lookup_replace_eq. split; [done|].
    intros name' Hne. by rewrite lookup_replace_ne.
Qed.

Lemma set_inv x name v y :
  Inst.set x name v = Ok y → get_fields y = Inst.replace name v (get_fields x).
Proof.
  unfold Inst.set. destruct x as [[|[k w] fs]]; cbn.
  - by intros [= <-].
  - destruct (bool_decide _); cbn; [by intros [= <-] | done].
Qed.

Lemma field_index_len v idx w :
  field_index v idx = Ok w → field_len w = length idx.
Proof.
  destruct v; cbn; intros (out & Hsel & ->)%fmap_Ok; cbn;
    by apply index_select_length in Hsel.
Qed.

Lemma field_index_total v idx :
  Forall (fun i => - Z.of_nat (field_len v) ≤ i < Z.of_nat (field_len v))%Z idx →
  ∃ w, field_index v idx = Ok w.
Proof.
  destruct v as [t|t|t|t]; cbn; intros Hidx;
    destruct (index_select_total t idx Hidx) as [out ->]; by eexists.
Qed.

Lemma index_wf x idx y : Inst.index x idx = Ok y → inst_wf y (length idx).
Proof.
  unfold Inst.index. intros (fs & Hfs & [= <-])%bind_Ok.
  unfold inst_wf. cbn. apply Forall_lookup. intros j [k w] Hj.
  destruct (for_each_lookup_r _ _ _ _ _ Hfs Hj) as ([k' v] & _ & Hkv).
  cbn in Hkv. apply bind_Ok in Hkv as (w' & Hw & [= <- <-]). cbn.
  by eapply field_index_len.
Qed.

Lemma index_total x n idx :
  inst_wf x n →
  Forall (fun i => - Z.of_nat n ≤ i < Z.of_nat n)%Z idx →
  ∃ y, Inst.index x idx = Ok y.
Proof.
  intros Hx Hidx. unfold Inst.index.
  destruct (for_each_total
              (fun kv : string * field => v ← field_index kv.2 idx; mret (kv.1, v))
              (get_fields x)) as [fs ->]; [|by eexists].
  eapply Forall_impl; [exact Hx|]. cbn. intros [k v] Hv. cbn in *.
  destruct (field_index_total v idx) as [w ->]; [by rewrite Hv | by eexists].
Qed.

Lemma len_wf x n name v :
  inst_wf x n → Inst.get x name = Ok v → Inst.len x = Ok n.
Proof.
  intros Hx Hv. apply get_Ok in Hv. unfold Inst.len.
  destruct x as [[|[k w] fs]]; cbn in *; [done|].
  inversion Hx; subst. cbn in *. by subst.
Qed.

Lemma len_wf_inv x n m : inst_wf x n → Inst.len x = Ok m → m = n.
Proof.
  unfold Inst.len. destruct x as [[|[k w] fs]]; cbn; [done|].
  intros Hx [= <-]. by inversion Hx.
Qed.

Lemma get_Ok_range {A} (t : list A) (i : Z) (a : A) :
  Tensor.get t i = Ok a →
  (- Z.of_nat (length t) ≤ i < Z.of_nat (length t))%Z.
Proof.
  unfold Tensor.get, Tensor.norm_index. intros Hg.
  repeat case_match; simplify_eq; cbn in *; try done; lia.
Qed.

Lemma index_select_range {A} (t : list A) (idx : list Z) (out : list A) :
  Tensor.index_select t idx = Ok out →
  Forall (fun i => - Z.of_nat (length t) ≤ i < Z.of_nat (length t))%Z idx.
Proof.
  intros Hs. apply Forall_lookup. intros j i Hi.
  destruct (for_each_lookup _ _ _ _ _ Hs Hi) as (a & _ & Hg).
  by eapply get_Ok_range.
Qed.

Lemma Forall_eq_replicate {A} (l : list A) (a : A) :
  Forall (fun x => x = a) l → l = replicate (length l) a.
Proof. induction 1 as [|x l -> _ IH]; cbn; [done | by rewrite <- IH]. Qed.

(** ** Images without targets *)

Section EmptyTargets.
Context `{Sampling} `{!SamplingContract} `{Matching} `{!MatchingContract}
        `{GtAugment}.
Implicit Types (self : ROIHeads) (p t o : Instances).

Lemma sample_proposals_no_gt self mi ml c idxs labels :
  _sample_proposals self mi ml [] c = Ok (idxs, labels) →
  labels = replicate (length idxs) (num_classes self)
  ∧ Forall (fun i => - Z.of_nat (length mi) ≤ i < Z.of_nat (length mi))%Z idxs.
Proof.
  intros (classes & Hcv & _ & Hsel)%sample_proposals_Ok.
  unfold class_vector in Hcv.
  rewrite bool_decide_false in Hcv by (cbn; lia). subst classes.
  split.
  - rewrite <- (index_select_length _ _ _ Hsel).
    apply Forall_eq_replicate.
    eapply Forall_impl; [by eapply index_select_elem_of|].
    cbn. intros l Hl. unfold Tensor.full_like in Hl.
    by apply elem_of_replicate in Hl as [-> _].
  - apply index_select_range in Hsel.
    unfold Tensor.full_like in Hsel. by rewrite length_replicate in Hsel.
Qed.

Lemma label_image_empty self c p t o :
  inst_wf t 0 →
  label_image self c p t = Ok o →
  ∃ tb pb idxs labels q,
    Inst.get t "gt_boxes" = Ok (Boxes tb)
    ∧ Inst.get p "proposal_boxes" = Ok (Boxes pb)
    ∧ _sample_proposals self (proposal_matcher (pairwise_iou tb pb)).1
        (proposal_matcher (pairwise_iou tb pb)).2 [] c = Ok (idxs, labels)
    ∧ Inst.index p idxs = Ok q
    ∧ all_background self o (length idxs)
    ∧ ∀ name, name ≠ "gt_classes" → name ≠ "gt_boxes" →
              Inst.get o name = Inst.get q name.
Proof.
  intros Ht Hl. unfold label_image in Hl.
  apply bind_Ok in Hl as (n & Hn & Hl).
  apply (len_wf_inv _ _ _ Ht) in Hn as ->.
  apply bind_Ok in Hl as (tb & Htb & Hl).
  apply bind_Ok in Htb as (vb & Hvb & Htb).
  destruct vb as [tb'| | |]; try done. injection Htb as ->.
  apply bind_Ok in Hl as (pb & Hpb & Hl).
  apply bind_Ok in Hpb as (vp & Hvp & Hpb).
  destruct vp as [pb'| | |]; try done. injection Hpb as ->.
  destruct (proposal_matcher (pairwise_iou tb pb)) as [mi ml] eqn:Hmatch.
  apply bind_Ok in Hl as (tc & Htc & Hl).
  apply bind_Ok in Htc as (v & Hv & Htc).
  destruct v as [|tc'| |]; try done. injection Htc as ->.
  apply get_Ok in Hv. apply (lookup_wf _ _ _ _ Ht) in Hv. cbn in Hv.
  apply nil_length_inv in Hv as ->.
  apply bind_Ok in Hl as ([idxs labels] & Hs & Hl).
  pose proof Hs as Hsample.
  apply sample_proposals_no_gt in Hs as [-> _].
  apply bind_Ok in Hl as (p1 & Hp1 & Hl). pose proof Hp1 as Hindex.
  apply index_wf in Hp1.
  apply bind_Ok in Hl as (p2 & Hp2 & Hl).
  rewrite bool_decide_false in Hl by lia.
  destruct (set_Ok p1 "gt_classes"
              (IntTensor (replicate (length idxs) (num_classes self)))
              (length idxs) Hp1) as (p2' & Hp2' & Hwf2 & Hget2 & Hother2);
    [cbn; by rewrite length_replicate|].
  rewrite Hp2 in Hp2'. injection Hp2' as <-.
  destruct (set_Ok p2 "gt_boxes" (Boxes (replicate (length idxs) zero_box))
              (length idxs) Hwf2) as (o' & Ho' & Hwfo & Hgeto & Hother);
    [cbn; by rewrite length_replicate|].
  rewrite Hl in Ho'. injection Ho' as <-.
  exists tb, pb, idxs, (replicate (length idxs) (num_classes self)), p1.
  rewrite Hmatch.
  split; [done|]. split; [done|]. split; [done|]. split; [done|]. split.
  - unfold all_background.
    rewrite Hother by done. repeat split; try done.
    by eapply len_wf.
  - intros name Hc Hb. rewrite Hother by done. by apply Hother2.
Qed.

Lemma label_image_empty_total self c p t n target_boxes proposal_boxes :
  inst_wf t 0 →
  Inst.get t "gt_boxes" = Ok (Boxes target_boxes) →
  Inst.get t "gt_classes" = Ok (IntTensor []) →
  inst_wf p n →
  Inst.get p "proposal_boxes" = Ok (Boxes proposal_boxes) →
  ∃ o, label_image self c p t = Ok o.
Proof.
  intros Ht Htb Htc Hp Hpb. unfold label_image.
  rewrite (len_wf _ _ _ _ Ht Htb), Htb, Hpb, Htc. cbn.
  pose proof (matched_idxs_length target_boxes proposal_boxes) as Hlen.
  destruct (proposal_matcher _) as [mi ml]. cbn in Hlen.
  destruct (sample_proposals_total self mi ml [] c) as (idxs & labels & Hs);
    [by intros []|].
  rewrite Hs. cbn.
  apply sample_proposals_no_gt in Hs as [-> Hrange].
  apply get_Ok in Hpb. apply (lookup_wf _ _ _ _ Hp) in Hpb. cbn in Hpb.
  rewrite Hlen, Hpb in Hrange.
  destruct (index_total p n idxs Hp Hrange) as [p1 Hp1].
  rewrite Hp1. cbn. apply index_wf in Hp1.
  destruct (set_Ok p1 "gt_classes"
              (IntTensor (replicate (length idxs) (num_classes self)))
              (length idxs) Hp1) as (p2 & -> & Hwf2 & _);
    [cbn; by rewrite length_replicate|].
  cbn.
  destruct (set_Ok p2 "gt_boxes" (Boxes (replicate (length idxs) zero_box))
              (length idxs) Hwf2) as (o & -> & _);
    [cbn; by rewrite length_replicate|].
  by eexists.
Qed.

(** C5: for an image with zero targets, [label_and_sample_proposals]
    yields a proposal set whose classes all equal [num_classes] and whose
    [gt_boxes] holds one zero box per sampled proposal: as many as the
    sampler returned indices for the matches of the image's proposals, the
    other fields being the rows of the proposals at those indices; and on
    such an image the labeling of well-formed proposals does return. *)
Theorem empty_target_all_background self c :
  (∀ proposals targets outs i t o,
     label_and_sample_proposals self proposals targets c = Ok outs →
     targets !! i = Some t → inst_wf t 0 → outs !! i = Some o →
     ∃ gt_boxes p tb pb idxs labels q,
       for_each (fun x => Inst.get x "gt_boxes") targets = Ok gt_boxes
       ∧ (if proposal_append_gt self
          then add_ground_truth_to_proposals gt_boxes proposals
          else proposals) !! i = Some p
       ∧ Inst.get t "gt_boxes" = Ok (Boxes tb)
       ∧ Inst.get p "proposal_boxes" = Ok (Boxes pb)
       ∧ _sample_proposals self (proposal_matcher (pairwise_iou tb pb)).1
           (proposal_matcher (pairwise_iou tb pb)).2 [] c = Ok (idxs, labels)
       ∧ Inst.index p idxs = Ok q
       ∧ all_background self o (length idxs)
       ∧ ∀ name, name ≠ "gt_classes" → name ≠ "gt_boxes" →
                 Inst.get o name = Inst.get q name)
  ∧ (∀ p t n target_boxes proposal_boxes,
       inst_wf t 0 →
       Inst.get t "gt_boxes" = Ok (Boxes target_boxes) →
       Inst.get t "gt_classes" = Ok (IntTensor []) →
       inst_wf p n →
       Inst.get p "proposal_boxes" = Ok (Boxes proposal_boxes) →
       ∃ o idxs labels q,
         label_image self c p t = Ok o
         ∧ _sample_proposals self
             (proposal_matcher (pairwise_iou target_boxes proposal_boxes)).1
             (proposal_matcher (pairwise_iou target_boxes proposal_boxes)).2
             [] c = Ok (idxs, labels)
         ∧ Inst.index p idxs = Ok q
         ∧ all_background self o (length idxs)
         ∧ ∀ name, name ≠ "gt_classes" → name ≠ "gt_boxes" →
                   Inst.get o name = Inst.get q name).
Proof.
  split.
  - intros proposals targets outs i t o Hl Ht Hwf Ho.
    unfold label_and_sample_proposals in Hl.
    apply bind_Ok in Hl as (gt_boxes & Hgt & Hl).
    destruct (for_each_lookup_r _ _ _ _ _ Hl Ho) as ([p t'] & Hpt & Himg).
    apply lookup_zip_with_Some in Hpt as (p' & t'' & [= <- <-] & Hp & Ht').
    cbn in Himg. rewrite Ht in Ht'. injection Ht' as <-.
    destruct (label_image_empty self c p t o Hwf Himg)
      as (tb & pb & idxs & labels & q & Hrest).
    exists gt_boxes, p, tb, pb, idxs, labels, q. by split.
  - intros p t n tb pb Ht Htb Htc Hp Hpb.
    destruct (label_image_empty_total self c p t n tb pb) as [o Ho]; try done.
    destruct (label_image_empty self c p t o Ht Ho)
      as (tb' & pb' & idxs & labels & q & Htb' & Hpb' & Hrest).
    rewrite Htb in Htb'. injection Htb' as <-.
    rewrite Hpb in Hpb'. injection Hpb' as <-.
    exists o, idxs, labels, q. by split.
Qed.
End EmptyTargets.

(** ** The labeler on a concrete image *)

Lemma spec_proposal_matcher_contract (low high : Q) :
  @MatchingContract
    {| iou_matrix := list (list Q);
       pairwise_iou := SpecModel.spec_pairwise_iou;
       proposal_matcher := SpecModel.spec_proposal_matcher low high |}.
Proof.
  split; intros targets proposals; cbn;
    unfold SpecModel.spec_proposal_matcher, SpecModel.spec_pairwise_iou; cbn;
    by rewrite !length_fmap.
Qed.

Section LabelerRuns.
Import Fixture.
Local Open Scope Z_scope.

Lemma filter_class_remapped_witness :
  (0 ≠ 2 → Forall (fun l => l ≠ 0) [2; 2; 3])
  ∧ ∃ resolved,
      resolve_classes roi_heads [1; 0; 0] [1; 1; 0] [0; 2] = Ok resolved
      ∧ length [2; 2; 3] = length [0; 1; 2]
      ∧ ∀ j i, [0; 1; 2] !! j = Some i →
               Tensor.get resolved i = Ok 0 → [2; 2; 3] !! j = Some 2.
Proof.
  apply (filter_class_remapped roi_heads [1; 0; 0] [1; 1; 0] [0; 2] 0
           [0; 1; 2] [2; 2; 3]).
  - lia.
  - discriminate.
  - vm_compute. reflexivity.
Defined.

(** C3 as stated fails for [filter_out_class = 2]: the proposal on the
    target of class 2 is sampled and still carries class 2. *)
Lemma filter_class_two_kept :
  _sample_proposals roi_heads [1; 0; 0] [1; 1; 0] [0; 2] 2 = Ok ([0; 1; 2], [2; 0; 3])
  ∧ (∃ out,
       label_and_sample_proposals roi_heads [image_proposals] [image_targets] 2
         = Ok [out]
       ∧ Inst.get out "gt_classes" = Ok (IntTensor [2; 0; 3]))
  ∧ ¬ Forall (fun l => l ≠ 2) [2; 0; 3].
Proof.
  split; [vm_compute; reflexivity|]. split.
  - eexists. split; vm_compute; reflexivity.
  - intros Hall. by inversion Hall.
Qed.

Lemma sampled_labels_exhaustive_witness :
  ∃ idxs labels,
    _sample_proposals roi_heads [1; 0; 0] [1; -1; 0] [0; 2] 0 = Ok (idxs, labels)
    ∧ length labels = length idxs
    ∧ Forall (fun l => (0 ≤ l < 3 ∨ l = 3) ∧ l ≠ -1) labels.
Proof.
  destruct (@sampled_labels_exhaustive first_come_sampling
              (spec_subsample_labels_contract _)
              roi_heads [1; 0; 0] [1; -1; 0] [0; 2] 0) as [Htotal Hlabels].
  - vm_compute. discriminate.
  - destruct Htotal as (idxs & labels & Hs).
    + intros _. split; [|reflexivity]. repeat constructor; cbn; lia.
    + exists idxs, labels. split; [exact Hs|]. exact (Hlabels idxs labels Hs).
Defined.

Lemma empty_target_all_background_witness :
  (∃ o, label_image roi_heads 0 image_proposals no_targets = Ok o
        ∧ all_background roi_heads o 3
        ∧ Inst.get o "objectness_logits" = Ok (FloatTensor [1; 1; 1]%Q))
  ∧ (∃ o, label_and_sample_proposals roi_heads [image_proposals] [no_targets] 0
            = Ok [o]
          ∧ all_background roi_heads o 3).
Proof.
  destruct (@empty_target_all_background first_come_sampling
              (spec_subsample_labels_contract _)
              threshold_matching (spec_proposal_matcher_contract _ _)
              spec_gt_augment roi_heads 0) as [Hbatch Himage].
  split.
  - destruct (Himage image_proposals no_targets 3%nat []
                [box 20 20 40 38; box 0 0 10 10; box 50 50 60 60])
      as (o & idxs & labels & q & Ho & Hs & Hq & Hbg & Hframe).
    + repeat constructor.
    + reflexivity.
    + reflexivity.
    + repeat constructor.
    + reflexivity.
    + vm_compute in Hs. injection Hs as <- <-.
      vm_compute in Hq. injection Hq as <-.
      exists o. split; [exact Ho|]. split; [exact Hbg|].
      etrans; [apply Hframe; discriminate|]. reflexivity.
  - destruct (label_and_sample_proposals roi_heads [image_proposals] [no_targets] 0)
      as [[|o [|]]|] eqn:Hrun; try (vm_compute in Hrun; discriminate).
    exists o.
    destruct (Hbatch [image_proposals] [no_targets] [o] 0%nat no_targets o)
      as (gt_boxes & p & tb & pb & idxs & labels & q & _ & Hp & Htb & Hpb
          & Hs & _ & Hbg & _);
      [exact Hrun | reflexivity | repeat constructor | reflexivity |].
    vm_compute in Hp. injection Hp as <-.
    vm_compute in Htb. injection Htb as <-.
    vm_compute in Hpb. injection Hpb as <-.
    vm_compute in Hs. injection Hs as <- <-.
    split; [reflexivity | exact Hbg].
Defined.
End LabelerRuns.

(** ** Construction *)

Section ConstructionFacts.
Context `{Modules}.

(** C7: a configuration that sets [REFINEMENT] to false while
    [BRANCH_GUIDANCE] is undefined or false cannot be constructed: the
    constructor raises, and once the box head is set up what it raises is
    the assertion on the two flags. *)
Theorem refinement_requires_guidance (cfg : Cfg)
    (input_shape : gmap string ShapeSpec) :
  REFINEMENT cfg = Some false →
  BRANCH_GUIDANCE cfg = None ∨ BRANCH_GUIDANCE cfg = Some false →
  is_Ok (TripleBranchROIHeads_init cfg input_shape) = false
  ∧ (∀ in_channels,
       _init_box_head cfg input_shape = Ok in_channels →
       TripleBranchROIHeads_init cfg input_shape
       = Raise (AssertionError
                  "refinement cannot be off without branch_guidance")).
Proof.
  intros Href Hguid. unfold TripleBranchROIHeads_init.
  assert (default false (BRANCH_GUIDANCE cfg) = false) as ->
    by (destruct Hguid as [-> | ->]; reflexivity).
  rewrite Href. cbn.
  destruct (_init_box_head cfg input_shape) as [c|e]; cbn.
  - split; [reflexivity|]. by intros ? _.
  - split; [reflexivity|]. by intros ? [=].
Qed.

Lemma TripleBranchROIHeads_init_Ok cfg input_shape self :
  TripleBranchROIHeads_init cfg input_shape = Ok self →
  base self = ROIHeads_init cfg
  ∧ for_nuclei self = hasattr (FOR_NUCLEI cfg)
  ∧ branch_guidance self = default false (BRANCH_GUIDANCE cfg)
  ∧ refinement self = default true (REFINEMENT cfg)
  ∧ (refinement self = false → branch_guidance self = true).
Proof.
  unfold TripleBranchROIHeads_init. intros Hinit.
  apply bind_Ok in Hinit as (c & _ & Hinit).
  apply bind_Ok in Hinit as ([] & Hassert & Hinit).
  injection Hinit as <-. cbn.
  repeat split; try by destruct (FOR_NUCLEI cfg).
  intros Href. destruct (REFINEMENT cfg) as [[]|]; cbn in *; try done.
  by destruct (default false (BRANCH_GUIDANCE cfg)).
Qed.

Lemma StandardROIHeads_init_Ok cfg input_shape self :
  StandardROIHeads_init cfg input_shape = Ok self →
  std_base self = ROIHeads_init cfg
  ∧ std_for_nuclei self = hasattr (FOR_NUCLEI cfg).
Proof.
  unfold StandardROIHeads_init. intros Hinit.
  apply bind_Ok in Hinit as (c & _ & Hinit).
  injection Hinit as <-. cbn. by destruct (FOR_NUCLEI cfg).
Qed.
End ConstructionFacts.

(** ** The labeling step of the forward passes *)

Section LabelingStep.
Context `{Modules} `{Sampling} `{Matching} `{GtAugment}.

Lemma prepare_proposals_labeled self proposals targets t rest n :
  targets = t :: rest → Inst.len t = Ok (S n) →
  prepare_proposals self proposals targets
  = (fun labeled => (false, labeled))
      <$> label_and_sample_proposals (base self) proposals targets
            (if for_nuclei self then 0
             else if rpn_attention_tb self then 1 else -1)%Z.
Proof.
  intros -> Hlen. unfold prepare_proposals.
  cbn [mbind Result_bind]. rewrite Hlen. cbn [mbind Result_bind].
  rewrite bool_decide_false by done. cbn [negb].
  destruct (for_nuclei self); [|destruct (rpn_attention_tb self)];
    by destruct (label_and_sample_proposals _ _ _ _).
Qed.

Lemma prepare_proposals_unlabeled self proposals targets t rest :
  targets = t :: rest → Inst.len t = Ok 0%nat →
  prepare_proposals self proposals targets = Ok (true, proposals).
Proof.
  intros -> Hlen. unfold prepare_proposals.
  cbn [mbind Result_bind]. by rewrite Hlen.
Qed.

(** C9: when the configuration defines [FOR_NUCLEI], whatever its value,
    both constructors set [for_nuclei], the constructed heads do not
    depend on the value, and every labeled training pass of either class
    labels its proposals with [filter_out_class = 0]. *)
Theorem for_nuclei_by_presence (cfg : Cfg)
    (input_shape : gmap string ShapeSpec) (value : bool) :
  FOR_NUCLEI cfg = Some value →
  (∀ other : bool,
     TripleBranchROIHeads_init (set_FOR_NUCLEI (Some other) cfg) input_shape
     = TripleBranchROIHeads_init cfg input_shape
     ∧ StandardROIHeads_init (set_FOR_NUCLEI (Some other) cfg) input_shape
       = StandardROIHeads_init cfg input_shape)
  ∧ (∀ self : TripleBranchROIHeads,
       TripleBranchROIHeads_init cfg input_shape = Ok self →
       for_nuclei self = true
       ∧ ∀ features proposals targets t rest n,
           targets = t :: rest → Inst.len t = Ok (S n) →
           forward_train_locals self features proposals targets
           = (labeled ← label_and_sample_proposals (base self) proposals
                          targets 0;
              forward_heads_train self features false labeled))
  ∧ (∀ self : StandardROIHeads,
       StandardROIHeads_init cfg input_shape = Ok self →
       std_for_nuclei self = true
       ∧ ∀ proposals targets,
           targets ≠ [] →
           StandardROIHeads_prepare_proposals self proposals targets
           = label_and_sample_proposals (std_base self) proposals targets 0).
Proof.
  intros Hattr. split; [|split].
  - intros other.
    unfold TripleBranchROIHeads_init, StandardROIHeads_init, _init_box_head.
    cbn. rewrite Hattr. done.
  - intros self (_ & Hnuclei & _)%TripleBranchROIHeads_init_Ok.
    rewrite Hattr in Hnuclei. cbn in Hnuclei. split; [done|].
    intros features proposals targets t rest n Htargets Hlen.
    unfold forward_train_locals.
    rewrite (prepare_proposals_labeled _ _ _ _ _ _ Htargets Hlen), Hnuclei.
    by destruct (label_and_sample_proposals _ _ _ _).
  - intros self (_ & Hnuclei)%StandardROIHeads_init_Ok.
    rewrite Hattr in Hnuclei. cbn in Hnuclei. split; [done|].
    intros proposals targets Htargets.
    unfold StandardROIHeads_prepare_proposals.
    rewrite bool_decide_true by done. by rewrite Hnuclei.
Qed.
End LabelingStep.

(** ** The training pass *)

Lemma read_Ok {A} (var : string) (value : option A) (a : A) :
  read var value = Ok a → value = Some a.
Proof. destruct value; cbn; [by intros [= <-] | done]. Qed.

Lemma lookup_update_Some {V} (losses d : gmap string V) (k : string) (v : V) :
  d !! k = Some v → update losses d !! k = Some v.
Proof. intros Hd. unfold update. by apply lookup_union_Some_l. Qed.

Lemma lookup_update_None {V} (losses d : gmap string V) (k : string) :
  d !! k = None → update losses d !! k = losses !! k.
Proof. intros Hd. unfold update. by apply lookup_union_r. Qed.

(** Split an equation [... = Ok L] on the router along its statements: one
    hypothesis per bind, one equation per destructured tuple. *)
Ltac peel H :=
  repeat first
    [ apply bind_Ok in H as (? & ? & H)
    | match type of H with
      | match ?e with pair _ _ => _ end = Ok _ => destruct e eqn:?
      end ].

(** The same along every hypothesis, with the reads of bound variables and
    the returns resolved. *)
Ltac peel_all :=
  repeat match goal with
    | H : _ ≫= _ = Ok _ |- _ => apply bind_Ok in H as (? & ? & H)
    | H : match ?e with pair _ _ => _ end = _ |- _ => destruct e eqn:?
    | H : read _ _ = Ok _ |- _ => apply read_Ok in H
    | H : mret _ = Ok _ |- _ => unfold mret, Result_ret in H
    end.

Section TrainingPass.
Context `{Modules} `{Sampling} `{Matching} `{GtAugment}.

Lemma forward_train_Ok self features input targets r :
  forward self true features input targets = Ok r →
  ∃ L, forward_train_locals self features input targets = Ok L
       ∧ ret_instances r = proposals L
       ∧ ret_losses r = losses L.
Proof.
  unfold forward. intros Hr.
  apply bind_Ok in Hr as (L & HL & Hr). exists L. split; [done|].
  destruct (rpn_attention_tb self).
  - apply bind_Ok in Hr as (logits & _ & [= <-]). done.
  - by injection Hr as <-.
Qed.

(** C10: in a training invocation whose first image has no target, the
    labeler is not part of the computation, the proposals handed to the
    mask branches and returned are the input proposals, and the mask
    features are pooled from the boxes of all of them. *)
Theorem unlabeled_passthrough self features input targets t rest :
  targets = t :: rest → Inst.len t = Ok 0%nat →
  forward_train_locals self features input targets
  = forward_heads_train self features true input
  ∧ (∀ L, forward_train_locals self features input targets = Ok L →
          unlabeled L = true
          ∧ proposals L = input
          ∧ selected_proposals L = input
          ∧ ∃ features_list boxes,
              features_list_of (in_features self) features = Ok features_list
              ∧ for_each (fun x => Inst.get x "proposal_boxes") input = Ok boxes
              ∧ mask_features L = mask_pooler features_list boxes)
  ∧ (∀ r, forward self true features input targets = Ok r →
          ret_instances r = input).
Proof.
  intros Htargets Hlen.
  assert (forward_train_locals self features input targets
          = forward_heads_train self features true input) as Heq.
  { unfold forward_train_locals.
    by rewrite (prepare_proposals_unlabeled _ _ _ _ _ Htargets Hlen). }
  assert (∀ L, forward_heads_train self features true input = Ok L →
               unlabeled L = true ∧ proposals L = input
               ∧ selected_proposals L = input
               ∧ ∃ features_list boxes,
                   features_list_of (in_features self) features
                     = Ok features_list
                   ∧ for_each (fun x => Inst.get x "proposal_boxes") input
                     = Ok boxes
                   ∧ mask_features L = mask_pooler features_list boxes)
    as Hlocals.
  { intros L HL. unfold forward_heads_train in HL. peel HL.
    unfold mret, Result_ret, the_mask_pooler in *.
    destruct (mask_on self); simplify_eq. cbn.
    repeat split. eexists _, _. done. }
  split; [done|]. split.
  - intros L HL. rewrite Heq in HL. by apply Hlocals.
  - intros r (L & HL & Hinst & _)%forward_train_Ok.
    rewrite Heq in HL. apply Hlocals in HL as (_ & Hp & _). congruence.
Qed.
End TrainingPass.

(** ** The losses of a training pass *)

Section TrainingLosses.
Context `{Modules} `{Sampling} `{Matching} `{GtAugment}.

Lemma forward_train_locals_Ok self features input targets L :
  forward_train_locals self features input targets = Ok L →
  ∃ labeled, forward_heads_train self features (unlabeled L) labeled = Ok L.
Proof.
  unfold forward_train_locals. intros HL.
  apply bind_Ok in HL as ([u labeled] & _ & HL). exists labeled.
  assert (unlabeled L = u) as ->; [|done].
  unfold forward_heads_train in HL. peel HL. by injection HL as <-.
Qed.

Lemma forward_heads_train_mx self features unlabeled0 labeled L :
  forward_heads_train self features unlabeled0 labeled = Ok L →
  consis_loss self = true → consis_loss_mode self = "MX" →
  ∃ refinement_logits whole_in guiding_layers,
    refinement self = true
    ∧ (whole_in, guiding_layers)
      = (if pure_branch self then (mask_features L, false)
         else (cat [mask_features L;
                    triple_branch_overlapping_mask_inner_feature L;
                    triple_branch_nonoverlapping_mask_inner_feature L], true))
    ∧ (whole_head_train whole_in (selected_proposals L) guiding_layers).1.2
      = refinement_logits
    ∧ triple_branch_whole_mask_logits L = Some refinement_logits
    ∧ losses L !! "loss_triple_branch_consistency"
      = Some (scale (1 # 800)
                (binary_cross_entropy
                   (float (logical_xor
                             (gt (sigmoid (triple_branch_nonoverlapping_mask_logits L))
                                 (1 # 2))
                             (gt (sigmoid (triple_branch_overlapping_mask_logits L))
                                 (1 # 2))))
                   (float (gt (sigmoid refinement_logits) (1 # 2))))).
Proof.
  intros HL Hconsis Hmode. unfold forward_heads_train in HL.
  rewrite Hconsis, Hmode, bool_decide_true in HL by done.
  peel_all. simplify_eq. cbn.
  destruct (refinement self); [|done].
  destruct (pure_branch self), unlabeled0; cbn in *; peel_all; simplify_eq;
    eexists _, _, _; (split; [done|]); (split; [done|]);
    match goal with
    | Hw : whole_head_train _ _ _ = _ |- _ => rewrite Hw
    end; cbn; (split; [done|]); (split; [done|]);
    by apply lookup_update_Some, lookup_singleton_eq.
Qed.

End TrainingLosses.

(** ** The weight of the pre-branch loss *)

Section PreBranchWeight.
Context `{Modules} `{Sampling} `{Matching} `{GtAugment}.

Lemma forward_heads_train_pre_branch self features labeled L k v :
  forward_heads_train self features false labeled = Ok L →
  (whole_head_train (mask_features L) (selected_proposals L) false).1.1 !! k
    = Some v →
  triple_branch_overlapping_mask_loss L !! k = None →
  triple_branch_nonoverlapping_mask_loss L !! k = None →
  (∀ whole_loss, triple_branch_whole_mask_loss L = Some whole_loss →
                 whole_loss !! k = None) →
  k ≠ "loss_triple_branch_consistency" →
  (branch_guidance self = true → losses L !! k = Some (scale (3 # 4) v))
  ∧ (branch_guidance self = false → heads_attention self = true →
     losses L !! k = Some v).
Proof.
  intros HL Hpre Hover Hnonover Hwhole Hkey.
  unfold forward_heads_train in HL. cbn [negb] in HL.
  rewrite andb_false_r in HL.
  destruct (consis_loss self);
    [destruct (bool_decide (consis_loss_mode self = "MX")); [|by peel_all]|];
    (destruct (refinement self); [destruct (pure_branch self)|]);
    (destruct (branch_guidance self); [|destruct (heads_attention self)]);
    cbn in HL; peel_all; simplify_eq; cbn in *;
    (split; [intros ?|intros ? ?]); try done;
    repeat match goal with
      | Hw : whole_head_train ?a ?b ?c = _, Hp : context [whole_head_train ?a ?b ?c] |- _ =>
          rewrite Hw in Hp; cbn in Hp
      end.
  all: try (rewrite (Hwhole _ eq_refl) in Hpre; discriminate).
  all: repeat (rewrite lookup_update_None
                 by first [ done | by apply lookup_singleton_ne
                          | by apply Hwhole ]).
  all: apply lookup_update_Some; by rewrite ?lookup_fmap, Hpre.
Qed.
(** C4, as amended: in a labeled training invocation the loss of the
    pre-branch is entered into the losses multiplied by 0.75 when
    [branch_guidance] is on, and as it is when only [heads_attention] is
    on; the entry is what the returned mapping holds under its key unless
    a later branch returns a loss under that key. *)
Theorem pre_branch_loss_weight self features input targets r :
  forward self true features input targets = Ok r →
  ∃ L, forward_train_locals self features input targets = Ok L
       ∧ ∀ k v,
           unlabeled L = false →
           (whole_head_train (mask_features L) (selected_proposals L) false).1.1
             !! k = Some v →
           triple_branch_overlapping_mask_loss L !! k = None →
           triple_branch_nonoverlapping_mask_loss L !! k = None →
           (∀ whole_loss, triple_branch_whole_mask_loss L = Some whole_loss →
                          whole_loss !! k = None) →
           k ≠ "loss_triple_branch_consistency" →
           (branch_guidance self = true →
            ret_losses r !! k = Some (scale (3 # 4) v))
           ∧ (branch_guidance self = false → heads_attention self = true →
              ret_losses r !! k = Some v).
Proof.
  intros (L & HL & _ & Hlosses)%forward_train_Ok. exists L. split; [done|].
  intros k v Hlabeled Hpre Hover Hnonover Hwhole Hkey.
  destruct (forward_train_locals_Ok _ _ _ _ _ HL) as [labeled Hheads].
  rewrite Hlabeled in Hheads. rewrite Hlosses.
  by eapply forward_heads_train_pre_branch.
Qed.
End PreBranchWeight.

(** ** The losses of an unlabeled pass *)

Section UnlabeledLosses.
Context `{Modules} `{Sampling} `{Matching} `{GtAugment}.

End UnlabeledLosses.

(** ** The guidance stacks *)

Section GuidanceStacks.
Context `{Modules}.

Lemma last_layer_output_last (layers : list (tensor → tensor))
    (layer : tensor → tensor) (x : tensor) :
  last_layer_output (layers ++ [layer]) x = Some (layer x).
Proof. unfold last_layer_output. by rewrite fold_left_app. Qed.

(** Of the three layers of a stack, the loop of the router keeps the
    output of the third applied to the concatenation itself. *)
Lemma guidance_stack_output (conv_dims : Z) (prefix : string) (x : tensor) :
  last_layer_output (guidance_stack conv_dims prefix) x
  = Some (Conv2d_relu (2 * conv_dims) conv_dims (prefix +:+ "2") x).
Proof. reflexivity. Qed.

Lemma guidance_stack_sequential (conv_dims : Z) (prefix : string) (x : tensor) :
  sequential (guidance_stack conv_dims prefix) x
  = Conv2d_relu (2 * conv_dims) conv_dims (prefix +:+ "2")
      (Conv2d_relu (2 * conv_dims) (2 * conv_dims) (prefix +:+ "1")
         (Conv2d_relu (2 * conv_dims) (2 * conv_dims) (prefix +:+ "0") x)).
Proof. reflexivity. Qed.
End GuidanceStacks.

(** ** The router on concrete inputs *)

Lemma Ok_of_is_Ok {A} (r : Result A) : is_Ok r = true → ∃ a, r = Ok a.
Proof. destruct r; [by eexists | done]. Qed.

Lemma Ok_field {A B} (f : A → B) (r : Result A) (a : A) (b : B) :
  r = Ok a → f <$> r = Ok b → f a = b.
Proof. intros ->. cbn. by intros [= <-]. Qed.

(** Settle a goal on a field of the result [a] of a run, given the equation
    [Hrun] of the run, by evaluating the field of the run. *)
Ltac field_of Hrun :=
  match goal with
  | |- ?lhs = ?b =>
      match type of Hrun with
      | _ = Ok ?a =>
          let f := eval pattern a in lhs in
          match f with
          | ?g a => apply (Ok_field g _ a b Hrun); vm_compute; reflexivity
          end
      end
  end.

Section RouterRuns.
Import Fixture.
#[local] Existing Instances backend modules.

(** C1 fails on the code: with [branch_guidance] on, in training and in
    inference, the input of the overlapping branch is the third layer of
    the stack applied to the concatenation, here [[40]; [20]], and not
    the composition of the three layers, here [[160]; [80]]. *)
Theorem guidance_stack_not_composed :
  ∃ self stack L I,
    TripleBranchROIHeads_init (make_cfg None (Some true) None None false)
      input_shape = Ok self
    ∧ branch_guidance_conv_overlap self = Some stack
    ∧ length stack = 3%nat
    ∧ forward_train_locals self features [image_proposals] [image_targets]
      = Ok L
    ∧ mask_features_for_over_nonover_branches L = [[20; 20]; [10; 10]]%Q
    ∧ mask_features_for_over_branches L = Some [[40]; [20]]%Q
    ∧ sequential stack (mask_features_for_over_nonover_branches L)
      = [[160]; [80]]%Q
    ∧ mask_features_for_over_branches L
      ≠ Some (sequential stack (mask_features_for_over_nonover_branches L))
    ∧ forward_with_given_boxes_locals self false features
        (predicted <$> [image_proposals]) = Ok I
    ∧ inf_mask_features_for_over_branches I
      = Some [[40]; [20]; [20]]%Q
    ∧ sequential stack (inf_mask_features_for_over_nonover_branches I)
      = [[160]; [80]; [80]]%Q.
Proof.
  pose (self := router false false true false true false).
  pose (stack := guidance_stack 1 "branch_guidance_conv_overlap_layer").
  destruct (Ok_of_is_Ok
              (forward_train_locals self features [image_proposals]
                 [image_targets])) as [L HL]; [vm_compute; reflexivity|].
  destruct (Ok_of_is_Ok
              (forward_with_given_boxes_locals self false features
                 (predicted <$> [image_proposals]))) as [I HI];
    [vm_compute; reflexivity|].
  assert (mask_features_for_over_branches L = Some [[40]; [20]]%Q) as Hover
    by field_of HL.
  assert (sequential stack (mask_features_for_over_nonover_branches L)
          = [[160]; [80]]%Q) as Hseq by field_of HL.
  exists self, stack, L, I.
  split; [reflexivity|]. split; [reflexivity|]. split; [reflexivity|].
  split; [exact HL|]. split; [field_of HL|]. split; [exact Hover|].
  split; [exact Hseq|]. split; [rewrite Hover, Hseq; discriminate|].
  split; [exact HI|]. split; field_of HI.
Qed.

(** C2 fails on the code: with [refinement] and [pure_branch], a training
    invocation on an image without targets returns the loss of the
    whole-mask branch; without [pure_branch] the same invocation returns
    no loss at all. *)
Theorem unlabeled_pure_branch_keeps_whole_loss :
  (∃ self r,
     TripleBranchROIHeads_init (make_cfg (Some true) None None None false)
       input_shape = Ok self
     ∧ forward self true features [image_proposals] [no_targets] = Ok r
     ∧ ret_instances r = [image_proposals]
     ∧ ret_losses r = {[ "loss_triple_branch_whole_mask_guidance" := 1%Q ]})
  ∧ (∃ self r,
       TripleBranchROIHeads_init (make_cfg None None None None false)
         input_shape = Ok self
       ∧ forward self true features [image_proposals] [no_targets] = Ok r
       ∧ ret_losses r = ∅).
Proof.
  split.
  - pose (self := router false true false false true false).
    destruct (Ok_of_is_Ok
                (forward self true features [image_proposals] [no_targets]))
      as [r Hr]; [vm_compute; reflexivity|].
    exists self, r. split; [reflexivity|]. split; [exact Hr|].
    split; field_of Hr.
  - pose (self := router false false false false true false).
    destruct (Ok_of_is_Ok
                (forward self true features [image_proposals] [no_targets]))
      as [r Hr]; [vm_compute; reflexivity|].
    exists self, r. split; [reflexivity|]. split; [exact Hr|]. field_of Hr.
Qed.

(** C4 as stated fails with [heads_attention] on and [branch_guidance]
    off: the loss 1 of the attention pre-branch is returned as 1, not as
    0.75. *)
Lemma attention_loss_unscaled :
  ∃ self r L,
    TripleBranchROIHeads_init (make_cfg None None (Some true) None false)
      input_shape = Ok self
    ∧ branch_guidance self = false ∧ heads_attention self = true
    ∧ forward self true features [image_proposals] [image_targets] = Ok r
    ∧ forward_train_locals self features [image_proposals] [image_targets]
      = Ok L
    ∧ unlabeled L = false
    ∧ (whole_head_train (mask_features L) (selected_proposals L) false).1.1
      = {[ "loss_triple_branch_whole_mask_guidance" := 1%Q ]}
    ∧ ret_losses r !! "loss_triple_branch_whole_mask_guidance" = Some 1%Q
    ∧ ret_losses r !! "loss_triple_branch_whole_mask_guidance"
      ≠ Some (scale (3 # 4) 1%Q).
Proof.
  pose (self := router false false false true true false).
  destruct (Ok_of_is_Ok
              (forward self true features [image_proposals] [image_targets]))
    as [r Hr]; [vm_compute; reflexivity|].
  destruct (Ok_of_is_Ok
              (forward_train_locals self features [image_proposals]
                 [image_targets])) as [L HL]; [vm_compute; reflexivity|].
  assert (ret_losses r !! "loss_triple_branch_whole_mask_guidance" = Some 1%Q)
    as Hentry by field_of Hr.
  exists self, r, L.
  split; [reflexivity|]. split; [reflexivity|]. split; [reflexivity|].
  split; [exact Hr|]. split; [exact HL|]. split; [field_of HL|].
  split; [field_of HL|]. split; [exact Hentry|].
  intros Hscaled.
  pose proof (eq_trans (eq_sym Hentry) Hscaled) as Hboth.
  vm_compute in Hboth. discriminate.
Qed.

Lemma refinement_requires_guidance_witness :
  is_Ok (TripleBranchROIHeads_init (make_cfg None None None (Some false) false)
           input_shape) = false
  ∧ (∀ in_channels,
       _init_box_head (make_cfg None None None (Some false) false) input_shape
         = Ok in_channels →
       TripleBranchROIHeads_init (make_cfg None None None (Some false) false)
         input_shape
       = Raise (AssertionError
                  "refinement cannot be off without branch_guidance")).
Proof.
  apply (refinement_requires_guidance
           (make_cfg None None None (Some false) false) input_shape).
  - reflexivity.
  - left. reflexivity.
Defined.

Lemma for_nuclei_by_presence_witness :
  ∃ self standard,
    TripleBranchROIHeads_init (set_FOR_NUCLEI (Some false) cfg) input_shape
      = Ok self
    ∧ for_nuclei self = true
    ∧ forward_train_locals self features [image_proposals] [image_targets]
      = (labeled ← label_and_sample_proposals (base self) [image_proposals]
                     [image_targets] 0;
         forward_heads_train self features false labeled)
    ∧ StandardROIHeads_init (set_FOR_NUCLEI (Some false) cfg) input_shape
      = Ok standard
    ∧ std_for_nuclei standard = true
    ∧ StandardROIHeads_prepare_proposals standard [image_proposals]
        [image_targets]
      = label_and_sample_proposals (std_base standard) [image_proposals]
          [image_targets] 0.
Proof.
  destruct (for_nuclei_by_presence (set_FOR_NUCLEI (Some false) cfg)
              input_shape false eq_refl) as (_ & Htriple & Hstandard).
  exists (router true false false false true false), (standard_router true).
  destruct (Htriple (router true false false false true false) eq_refl)
    as [Hflag Hlabel].
  destruct (Hstandard (standard_router true) eq_refl) as [Hflag' Hlabel'].
  split; [reflexivity|]. split; [exact Hflag|]. split.
  - apply (Hlabel features [image_proposals] [image_targets] image_targets []
             1%nat); reflexivity.
  - split; [reflexivity|]. split; [exact Hflag'|].
    apply Hlabel'. discriminate.
Defined.

Lemma unlabeled_passthrough_witness :
  ∃ self L,
    TripleBranchROIHeads_init cfg input_shape = Ok self
    ∧ forward_train_locals self features [image_proposals] [no_targets] = Ok L
    ∧ unlabeled L = true
    ∧ proposals L = [image_proposals]
    ∧ selected_proposals L = [image_proposals]
    ∧ mask_features L = [[20]; [10]; [10]]%Q.
Proof.
  pose (self := router false false false false true false).
  destruct (unlabeled_passthrough self features [image_proposals] [no_targets]
              no_targets [] eq_refl eq_refl) as (_ & Hlocals & _).
  destruct (Ok_of_is_Ok
              (forward_train_locals self features [image_proposals]
                 [no_targets])) as [L HL]; [vm_compute; reflexivity|].
  exists self, L. split; [reflexivity|]. split; [exact HL|].
  destruct (Hlocals L HL) as (Hu & Hp & Hs & _).
  split; [exact Hu|]. split; [exact Hp|]. split; [exact Hs|].
  field_of HL.
Defined.


Lemma pre_branch_loss_weight_witness :
  ∃ self r,
    TripleBranchROIHeads_init (make_cfg None (Some true) None None false)
      input_shape = Ok self
    ∧ forward self true features [image_proposals] [image_targets] = Ok r
    ∧ ret_losses r !! "loss_triple_branch_whole_mask_guidance"
      = Some (scale (3 # 4) 1%Q).
Proof.
  pose (self := router false false true false true false).
  destruct (Ok_of_is_Ok
              (forward self true features [image_proposals] [image_targets]))
    as [r Hr]; [vm_compute; reflexivity|].
  exists self, r. split; [reflexivity|]. split; [exact Hr|].
  destruct (pre_branch_loss_weight self features [image_proposals]
              [image_targets] r Hr) as (L & HL & Hweight).
  destruct (Hweight "loss_triple_branch_whole_mask_guidance" 1%Q)
    as [Hguidance _].
  - field_of HL.
  - field_of HL.
  - field_of HL.
  - field_of HL.
  - intros whole_loss Hwhole.
    assert (triple_branch_whole_mask_loss L
            = Some {[ "loss_triple_branch_whole_mask" := 1%Q ]}) as Hloss
      by field_of HL.
    rewrite Hloss in Hwhole. injection Hwhole as <-. vm_compute. reflexivity.
  - discriminate.
  - apply Hguidance. reflexivity.
Defined.
End RouterRuns.

(** * Further properties of the labeler and of the router *)

(** ** Foreground selection *)

Lemma nonzero_snoc (mask : list bool) (b : bool) :
  nonzero (mask ++ [b])
  = nonzero mask ++ (if b then [Z.of_nat (length mask)] else []).
Proof.
  unfold nonzero. rewrite imap_app, filter_app, fmap_app. f_equal.
  destruct b; cbn; by rewrite ?Nat.add_0_r.
Qed.

Lemma for_each_app {A B} (f : A → Result B) (l1 l2 : list A) :
  for_each f (l1 ++ l2)
  = (ys1 ← for_each f l1; ys2 ← for_each f l2; mret (ys1 ++ ys2)).
Proof.
  induction l1 as [|x l1 IH]; cbn.
  - by destruct (for_each f l2).
  - destruct (f x) as [y|e]; cbn; [|done]. rewrite IH.
    destruct (for_each f l1) as [ys1|e]; cbn; [|done].
    by destruct (for_each f l2).
Qed.

Lemma for_each_ext {A B} (f g : A → Result B) (l : list A) :
  Forall (fun x => f x = g x) l → for_each f l = for_each g l.
Proof. induction 1 as [|x l Hx _ IH]; cbn; [done|]. by rewrite Hx, IH. Qed.

Lemma get_app_l {A} (t t' : list A) (i : Z) :
  (0 ≤ i < Z.of_nat (length t))%Z → Tensor.get (t ++ t') i = Tensor.get t i.
Proof.
  intros Hi. unfold Tensor.get.
  rewrite !norm_index_nonneg by (rewrite ?length_app; lia). cbn.
  rewrite lookup_app_l by lia. done.
Qed.

Lemma get_app_length {A} (t : list A) (x : A) :
  Tensor.get (t ++ [x]) (Z.of_nat (length t)) = Ok x.
Proof.
  apply get_nonneg; [lia|]. rewrite Nat2Z.id. apply list_lookup_middle. done.
Qed.

Lemma nonzero_range (mask : list bool) :
  Forall (fun i => 0 ≤ i < Z.of_nat (length mask))%Z (nonzero mask).
Proof.
  apply Forall_forall. intros i [Hi Hm]%elem_of_nonzero.
  apply lookup_lt_Some in Hm. lia.
Qed.

(** Indexing by the positions where a predicate holds is filtering. *)
Lemma index_select_nonzero {A} (P : A → bool) (t : list A) :
  Tensor.index_select t (nonzero (P <$> t))
  = Ok (filter (fun x => P x = true) t).
Proof.
  induction t as [|x t IH] using rev_ind; [done|].
  rewrite fmap_app. cbn [fmap list_fmap]. rewrite nonzero_snoc, length_fmap.
  unfold Tensor.index_select in *. rewrite for_each_app.
  rewrite (for_each_ext (Tensor.get (t ++ [x])) (Tensor.get t)
             (nonzero (P <$> t))).
  - rewrite IH, filter_app. cbn [mbind Result_bind].
    destruct (P x) eqn:HP.
    + rewrite (filter_cons_True _ x []) by done. cbn.
      rewrite get_app_length. done.
    + rewrite (filter_cons_False _ x []) by congruence. cbn.
      by rewrite app_nil_r.
  - eapply Forall_impl; [apply nonzero_range|]. cbn. intros i Hi.
    rewrite length_fmap in Hi. by apply get_app_l.
Qed.

Lemma index_lookup (x y : Instances) (idx : list Z) (name : string) :
  Inst.index x idx = Ok y →
  match Inst.lookup name (get_fields x) with
  | Some v => ∃ w, field_index v idx = Ok w
                   ∧ Inst.lookup name (get_fields y) = Some w
  | None => Inst.lookup name (get_fields y) = None
  end.
Proof.
  unfold Inst.index. intros (fs & Hfs & [= <-])%bind_Ok. cbn.
  revert fs Hfs. induction (get_fields x) as [|[k v] l IH]; intros fs Hfs.
  - by injection Hfs as <-.
  - cbn in Hfs. apply bind_Ok in Hfs as ([k' w] & Hkv & Hfs).
    apply bind_Ok in Hkv as (w' & Hw & [= <- <-]).
    apply bind_Ok in Hfs as (fs' & Hfs' & [= <-]). cbn.
    destruct (decide (k = name)); [eauto | by apply IH].
Qed.

Lemma index_nil_total (x : Instances) :
  ∃ y, Inst.index x [] = Ok y ∧ inst_wf y 0.
Proof.
  destruct (Inst.index x []) as [y|e] eqn:Hy.
  - exists y. split; [done|]. by apply index_wf in Hy.
  - exfalso. unfold Inst.index in Hy.
    destruct (for_each_total
                (fun kv : string * field => v ← field_index kv.2 []; mret (kv.1, v))
                (get_fields x)) as [fs Hfs].
    + apply Forall_forall. intros [k v] _. cbn. destruct v; cbn; by eexists.
    + by rewrite Hfs in Hy.
Qed.

Lemma filter_foreground (bg_label : Z) (classes : list Z) :
  filter (fun c => negb (c =? -1)%Z && negb (c =? bg_label)%Z = true) classes
  = filter (fun c => c ≠ (-1)%Z ∧ c ≠ bg_label) classes.
Proof.
  apply list_filter_iff. intros c.
  rewrite andb_true_iff, !negb_true_iff, !Z.eqb_neq. done.
Qed.

(** X1: foreground selection keeps, image by image and in order, exactly the
    proposals whose class is neither the ignore label nor the background
    label; the masks it returns say which ones. *)
Theorem select_foreground_classes (proposals : list Instances) (bg_label : Z)
    (fg : list Instances) (masks : list (list bool)) :
  select_foreground_proposals proposals bg_label = Ok (fg, masks) →
  length fg = length proposals
  ∧ length masks = length proposals
  ∧ ∀ i p, proposals !! i = Some p →
      ∃ classes q,
        Inst.get p "gt_classes" = Ok (IntTensor classes)
        ∧ masks !! i = Some (fg_selection_mask bg_label classes)
        ∧ fg !! i = Some q
        ∧ Inst.index p (nonzero (fg_selection_mask bg_label classes)) = Ok q
        ∧ Inst.get q "gt_classes"
          = Ok (IntTensor
                  (filter (fun c => c ≠ (-1)%Z ∧ c ≠ bg_label) classes))
        ∧ inst_wf q (length (filter (fun c => c ≠ (-1)%Z ∧ c ≠ bg_label)
                               classes)).
Proof.
  unfold select_foreground_proposals. intros Hsel.
  apply bind_Ok in Hsel as (first & _ & Hsel).
  apply bind_Ok in Hsel as ([] & _ & Hsel).
  apply bind_Ok in Hsel as (sel & Hsel & [= <- <-]).
  pose proof (for_each_length _ _ _ Hsel) as Hlen.
  rewrite !length_fmap. split; [done|]. split; [done|].
  intros i p Hp.
  destruct (for_each_lookup _ _ _ _ _ Hsel Hp) as ([q mask] & Hq & Himg).
  apply bind_Ok in Himg as (classes & Hclasses & Himg).
  apply bind_Ok in Hclasses as (v & Hv & Hints).
  destruct v as [|classes'| |]; try done. injection Hints as ->.
  apply bind_Ok in Himg as (q' & Hindex & [= -> <-]).
  exists classes, q.
  rewrite !list_lookup_fmap, Hq. cbn. repeat split; try done.
  - pose proof (index_lookup _ _ _ "gt_classes" Hindex) as Hlookup.
    apply get_Ok in Hv. rewrite Hv in Hlookup.
    destruct Hlookup as (w & Hw & Hget). apply get_Ok. rewrite Hget.
    cbn in Hw. unfold fg_selection_mask in Hw.
    rewrite index_select_nonzero in Hw. cbn in Hw. injection Hw as <-.
    by rewrite filter_foreground.
  - apply index_wf in Hindex.
    assert (length (nonzero (fg_selection_mask bg_label classes))
            = length (filter (fun c => c ≠ (-1)%Z ∧ c ≠ bg_label) classes))
      as <-; [|done].
    pose proof (index_select_nonzero
                  (fun c => negb (c =? -1)%Z && negb (c =? bg_label)%Z)
                  classes) as Hfilter.
    apply index_select_length in Hfilter.
    rewrite filter_foreground in Hfilter. done.
Qed.

Lemma select_foreground_gt_classes (proposals : list Instances) (bg_label : Z)
    (fg : list Instances) (masks : list (list bool)) :
  select_foreground_proposals proposals bg_label = Ok (fg, masks) →
  Forall (fun p => ∃ classes,
            Inst.get p "gt_classes" = Ok (IntTensor classes)) proposals.
Proof.
  unfold select_foreground_proposals. intros Hsel.
  apply bind_Ok in Hsel as (first & _ & Hsel).
  apply bind_Ok in Hsel as ([] & _ & Hsel).
  apply bind_Ok in Hsel as (sel & Hsel & _).
  apply Forall_lookup. intros i p Hp.
  destruct (for_each_lookup _ _ _ _ _ Hsel Hp) as ([q mask] & Hq & Himg).
  apply bind_Ok in Himg as (classes & Hclasses & Himg).
  apply bind_Ok in Hclasses as (v & Hv & Hints).
  destruct v as [|classes'| |]; try done. injection Hints as ->. eauto.
Qed.

(** X2: foreground selection needs at least one image, and a [gt_classes] field
    on the first one: an empty list raises [IndexError], a first image
    without the field fails the assertion. *)
Theorem select_foreground_needs_labels (proposals : list Instances)
    (bg_label : Z) :
  (proposals = [] →
   select_foreground_proposals proposals bg_label = Raise IndexError)
  ∧ (∀ p rest, proposals = p :: rest → Inst.has p "gt_classes" = false →
       select_foreground_proposals proposals bg_label
       = Raise (AssertionError "proposals[0].has(gt_classes)"))
  ∧ (is_Ok (select_foreground_proposals proposals bg_label) = true →
     Forall (fun p => ∃ classes,
               Inst.get p "gt_classes" = Ok (IntTensor classes)) proposals).
Proof.
  split; [by intros ->|]. split.
  - intros p rest -> Hhas. unfold select_foreground_proposals. cbn.
    by rewrite Hhas.
  - destruct (select_foreground_proposals proposals bg_label) as [[fg masks]|]
      eqn:Hsel; [|done].
    intros _. by eapply select_foreground_gt_classes.
Qed.

(** X3: on an image without targets the labeled proposals are all background,
    so foreground selection leaves none of them. *)
Theorem empty_target_no_foreground `{Sampling} `{!SamplingContract}
    `{Matching} `{!MatchingContract}
    (self : ROIHeads) (c : Z) (p t o : Instances) :
  inst_wf t 0 →
  label_image self c p t = Ok o →
  ∃ q k,
    select_foreground_proposals [o] (num_classes self)
    = Ok ([q], [replicate k false])
    ∧ Inst.len o = Ok k
    ∧ inst_wf q 0.
Proof.
  intros Ht Ho.
  destruct (label_image_empty self c p t o Ht Ho)
    as (tb & pb & idxs & labels & p1 & _ & _ & _ & _ & Hbg & _).
  destruct Hbg as (Hclasses & _ & Hlen & _).
  remember (length idxs) as k eqn:Hk. clear Hk.
  assert (fg_selection_mask (num_classes self)
            (replicate k (num_classes self)) = replicate k false) as Hmask.
  { unfold fg_selection_mask. rewrite fmap_replicate.
    by rewrite Z.eqb_refl, andb_false_r. }
  assert (nonzero (replicate k false) = []) as Hnone.
  { destruct (nonzero (replicate k false)) as [|i l] eqn:Hnz; [done|].
    assert (i ∈ nonzero (replicate k false)) as Hi
      by (rewrite Hnz; left).
    apply elem_of_nonzero in Hi as [_ Hi].
    apply lookup_replicate in Hi as [? _]. done. }
  destruct (index_nil_total o) as (q & Hq & Hwf).
  exists q, k. split; [|done].
  unfold select_foreground_proposals. cbn.
  unfold Inst.has. rewrite Hclasses.
  apply get_Ok in Hclasses. rewrite Hclasses.
  rewrite bool_decide_true by eauto. cbn.
  rewrite Hmask, Hnone, Hq. done.
Qed.

(** ** The fields of a labeled proposal set *)

Lemma set_lookup (x y : Instances) (name name' : string) (v : field) :
  Inst.set x name v = Ok y →
  Inst.lookup name' (get_fields y)
  = if decide (name = name') then Some v else Inst.lookup name' (get_fields x).
Proof.
  intros Hset%set_inv. rewrite Hset. case_decide as Hname.
  - subst. apply lookup_replace_eq.
  - by apply lookup_replace_ne.
Qed.

Lemma replace_not_nil (name : string) (v : field) (fs : list (string * field)) :
  Inst.replace name v fs ≠ [].
Proof.
  destruct fs as [|[k w] fs]; cbn [Inst.replace]; [done|]. by case_decide.
Qed.

Lemma set_not_nil (x y : Instances) (name : string) (v : field) :
  Inst.set x name v = Ok y → get_fields y ≠ [].
Proof. intros ->%set_inv. apply replace_not_nil. Qed.

Lemma set_wf (x y : Instances) (name : string) (v : field) (n : nat) :
  inst_wf x n → get_fields x ≠ [] → Inst.set x name v = Ok y → inst_wf y n.
Proof.
  intros Hx Hne Hset. pose proof (set_inv _ _ _ _ Hset) as Hy.
  unfold inst_wf in *. rewrite Hy. apply replace_wf; [done|].
  unfold Inst.set in Hset. destruct (get_fields x) as [|[k w] fs]; [done|].
  destruct (bool_decide (field_len w = field_len v)) eqn:Hlen; [|done].
  apply bool_decide_eq_true in Hlen.
  apply Forall_cons in Hx as [Hw _]. cbn in Hw. congruence.
Qed.

Lemma has_false (x : Instances) (name : string) :
  Inst.has x name = false ↔ Inst.lookup name (get_fields x) = None.
Proof.
  unfold Inst.has. rewrite bool_decide_eq_false.
  destruct (Inst.lookup name (get_fields x)) as [v|].
  - split; [intros Hx; destruct Hx; eauto | done].
  - split; [done | intros _ [v Hv]; done].
Qed.

Section CopyFields.
Implicit Types (p o t : Instances).

Lemma copy_step_lookup sampled_targets fs p o name :
  fold_result
    (fun (p : Instances) (kv : string * field) =>
       let '(trg_name, trg_value) := kv in
       if String.prefix "gt_" trg_name && negb (Inst.has p trg_name)
       then v ← field_index trg_value sampled_targets; Inst.set p trg_name v
       else Ok p) fs p = Ok o →
  match Inst.lookup name (get_fields p) with
  | Some v => Inst.lookup name (get_fields o) = Some v
  | None =>
      if String.prefix "gt_" name
      then match Inst.lookup name fs with
           | Some v => ∃ w, field_index v sampled_targets = Ok w
                            ∧ Inst.lookup name (get_fields o) = Some w
           | None => Inst.lookup name (get_fields o) = None
           end
      else Inst.lookup name (get_fields o) = None
  end.
Proof.
  revert p. induction fs as [|[k v] fs IH]; intros p Hfold.
  - injection Hfold as <-.
    destruct (Inst.lookup name (get_fields p)); [done|]. by case_match.
  - cbn in Hfold. apply bind_Ok in Hfold as (p' & Hstep & Hfold).
    specialize (IH p' Hfold). cbn [Inst.lookup].
    destruct (String.prefix "gt_" k && negb (Inst.has p k)) eqn:Hcopy.
    + apply andb_true_iff in Hcopy as [Hprefix Hhas].
      apply negb_true_iff, has_false in Hhas.
      apply bind_Ok in Hstep as (w & Hw & Hset).
      rewrite (set_lookup _ _ _ name _ Hset) in IH.
      destruct (decide (k = name)) as [->|Hname].
      * rewrite Hhas, Hprefix. eauto.
      * destruct (Inst.lookup name (get_fields p)); done.
    + injection Hstep as <-.
      destruct (decide (k = name)) as [->|Hname]; [|done].
      destruct (Inst.lookup name (get_fields p)) eqn:Hp; [done|].
      apply has_false in Hp. rewrite Hp, andb_true_r in Hcopy.
      by rewrite Hcopy in IH |- *.
Qed.

Lemma copy_step_wf sampled_targets fs p o n :
  inst_wf p n → get_fields p ≠ [] →
  fold_result
    (fun (p : Instances) (kv : string * field) =>
       let '(trg_name, trg_value) := kv in
       if String.prefix "gt_" trg_name && negb (Inst.has p trg_name)
       then v ← field_index trg_value sampled_targets; Inst.set p trg_name v
       else Ok p) fs p = Ok o →
  inst_wf o n ∧ get_fields o ≠ [].
Proof.
  revert p. induction fs as [|[k v] fs IH]; intros p Hwf Hne Hfold.
  - by injection Hfold as <-.
  - cbn in Hfold. apply bind_Ok in Hfold as (p' & Hstep & Hfold).
    destruct (String.prefix "gt_" k && negb (Inst.has p k)).
    + apply bind_Ok in Hstep as (w & Hw & Hset).
      apply (IH p'); [exact (set_wf p p' k w n Hwf Hne Hset)| |done].
      by eapply set_not_nil.
    + injection Hstep as <-. by apply (IH p).
Qed.
End CopyFields.

Section LabeledFields.
Context `{Sampling} `{Matching}.
Implicit Types (self : ROIHeads) (p t o : Instances).

Lemma label_image_Ok self c p t o :
  label_image self c p t = Ok o →
  ∃ n tb pb tc idxs labels p1 p2,
    Inst.len t = Ok n
    ∧ Inst.get t "gt_boxes" = Ok (Boxes tb)
    ∧ Inst.get p "proposal_boxes" = Ok (Boxes pb)
    ∧ Inst.get t "gt_classes" = Ok (IntTensor tc)
    ∧ _sample_proposals self (proposal_matcher (pairwise_iou tb pb)).1
        (proposal_matcher (pairwise_iou tb pb)).2 tc c = Ok (idxs, labels)
    ∧ Inst.index p idxs = Ok p1
    ∧ Inst.set p1 "gt_classes" (IntTensor labels) = Ok p2
    ∧ if bool_decide (0 < n)
      then ∃ sampled_targets,
             Tensor.index_select (proposal_matcher (pairwise_iou tb pb)).1 idxs
             = Ok sampled_targets
             ∧ copy_gt_fields sampled_targets t p2 = Ok o
      else Inst.set p2 "gt_boxes" (Boxes (replicate (length idxs) zero_box))
           = Ok o.
Proof.
  unfold label_image. intros Hl.
  apply bind_Ok in Hl as (n & Hn & Hl).
  apply bind_Ok in Hl as (tb & Htb & Hl).
  apply bind_Ok in Htb as (vb & Hvb & Htb).
  destruct vb as [tb'| | |]; try done. injection Htb as ->.
  apply bind_Ok in Hl as (pb & Hpb & Hl).
  apply bind_Ok in Hpb as (vp & Hvp & Hpb).
  destruct vp as [pb'| | |]; try done. injection Hpb as ->.
  destruct (proposal_matcher (pairwise_iou tb pb)) as [mi ml] eqn:Hmatch.
  apply bind_Ok in Hl as (tc & Htc & Hl).
  apply bind_Ok in Htc as (vc & Hvc & Htc).
  destruct vc as [|tc'| |]; try done. injection Htc as ->.
  apply bind_Ok in Hl as ([idxs labels] & Hs & Hl).
  apply bind_Ok in Hl as (p1 & Hp1 & Hl).
  apply bind_Ok in Hl as (p2 & Hp2 & Hl).
  exists n, tb, pb, tc, idxs, labels, p1, p2. cbn.
  rewrite Hmatch. cbn.
  do 7 (split; [done|]).
  destruct (bool_decide (0 < n)); [|exact Hl].
  apply bind_Ok in Hl as (st & Hst & Hl). eauto.
Qed.

(** X4: a labeled proposal set is the sampled rows of the input set: it is
    well formed with one row per sampled index, its [gt_classes] are the
    labels of the sampler, and every field of the proposals outside the
    [gt_] namespace is the input field at the sampled indices. *)
Theorem labeled_proposals_frame self c p t o :
  label_image self c p t = Ok o →
  ∃ tb pb tc idxs labels,
    Inst.get t "gt_boxes" = Ok (Boxes tb)
    ∧ Inst.get p "proposal_boxes" = Ok (Boxes pb)
    ∧ Inst.get t "gt_classes" = Ok (IntTensor tc)
    ∧ _sample_proposals self (proposal_matcher (pairwise_iou tb pb)).1
        (proposal_matcher (pairwise_iou tb pb)).2 tc c = Ok (idxs, labels)
    ∧ inst_wf o (length idxs)
    ∧ Inst.get o "gt_classes" = Ok (IntTensor labels)
    ∧ ∀ name v,
        String.prefix "gt_" name = false →
        Inst.get p name = Ok v →
        ∃ w, field_index v idxs = Ok w ∧ Inst.get o name = Ok w.
Proof.
  intros (n & tb & pb & tc & idxs & labels & p1 & p2 & Hn & Htb & Hpb & Htc
          & Hs & Hp1 & Hp2 & Ho)%label_image_Ok.
  exists tb, pb, tc, idxs, labels. repeat split; try done.
  - (* well-formedness *)
    pose proof (index_wf _ _ _ Hp1) as Hwf1.
    assert (get_fields p1 ≠ []) as Hne1.
    { pose proof (index_lookup _ _ _ "proposal_boxes" Hp1) as Hl.
      apply get_Ok in Hpb. rewrite Hpb in Hl. destruct Hl as (w & _ & Hl).
      intros Hnil. by rewrite Hnil in Hl. }
    pose proof (set_wf _ _ _ _ _ Hwf1 Hne1 Hp2) as Hwf2.
    assert (get_fields p2 ≠ []) as Hne2 by (by eapply set_not_nil).
    case_bool_decide.
    + destruct Ho as (st & _ & Ho).
      by destruct (copy_step_wf _ _ _ _ _ Hwf2 Hne2 Ho).
    + by eapply set_wf.
  - (* the labels *)
    pose proof (set_lookup _ _ _ "gt_classes" _ Hp2) as Hl2.
    rewrite decide_True in Hl2 by done. apply get_Ok.
    case_bool_decide.
    + destruct Ho as (st & _ & Ho).
      pose proof (copy_step_lookup _ _ _ _ "gt_classes" Ho) as Hl.
      by rewrite Hl2 in Hl.
    + rewrite (set_lookup _ _ _ "gt_classes" _ Ho).
      by rewrite decide_False.
  - (* the frame *)
    intros name v Hprefix Hv. apply get_Ok in Hv.
    pose proof (index_lookup _ _ _ name Hp1) as Hl1. rewrite Hv in Hl1.
    destruct Hl1 as (w & Hw & Hl1). exists w. split; [done|].
    assert (name ≠ "gt_classes") as Hne1 by (by intros ->).
    assert (name ≠ "gt_boxes") as Hne2 by (by intros ->).
    pose proof (set_lookup _ _ _ name _ Hp2) as Hl2.
    rewrite decide_False, Hl1 in Hl2 by done. apply get_Ok.
    case_bool_decide.
    + destruct Ho as (st & _ & Ho).
      pose proof (copy_step_lookup _ _ _ _ name Ho) as Hl.
      by rewrite Hl2 in Hl.
    + rewrite (set_lookup _ _ _ name _ Ho). by rewrite decide_False.
Qed.

(** X5: on an image with targets, every [gt_] field of the targets that the
    proposals lack is copied from the matched target of each sample; in
    particular [gt_boxes] holds the box of the target each sampled
    proposal was matched to. *)
Theorem matched_target_fields self c p t o n :
  label_image self c p t = Ok o →
  Inst.len t = Ok (S n) →
  ∃ tb pb tc idxs labels sampled_targets,
    Inst.get t "gt_boxes" = Ok (Boxes tb)
    ∧ Inst.get p "proposal_boxes" = Ok (Boxes pb)
    ∧ Inst.get t "gt_classes" = Ok (IntTensor tc)
    ∧ _sample_proposals self (proposal_matcher (pairwise_iou tb pb)).1
        (proposal_matcher (pairwise_iou tb pb)).2 tc c = Ok (idxs, labels)
    ∧ Tensor.index_select (proposal_matcher (pairwise_iou tb pb)).1 idxs
      = Ok sampled_targets
    ∧ ∀ name v,
        String.prefix "gt_" name = true →
        name ≠ "gt_classes" →
        Inst.has p name = false →
        Inst.get t name = Ok v →
        ∃ w, field_index v sampled_targets = Ok w ∧ Inst.get o name = Ok w.
Proof.
  intros (n' & tb & pb & tc & idxs & labels & p1 & p2 & Hn & Htb & Hpb & Htc
          & Hs & Hp1 & Hp2 & Ho)%label_image_Ok Hlen.
  rewrite Hlen in Hn. injection Hn as <-.
  rewrite bool_decide_true in Ho by lia. destruct Ho as (st & Hst & Ho).
  exists tb, pb, tc, idxs, labels, st. repeat split; try done.
  intros name v Hprefix Hname Hhas Hv.
  apply has_false in Hhas. apply get_Ok in Hv.
  pose proof (index_lookup _ _ _ name Hp1) as Hl1. rewrite Hhas in Hl1.
  pose proof (set_lookup _ _ _ name _ Hp2) as Hl2.
  rewrite decide_False, Hl1 in Hl2 by done.
  pose proof (copy_step_lookup _ _ _ _ name Ho) as Hl.
  rewrite Hl2, Hprefix, Hv in Hl. destruct Hl as (w & Hw & Hl).
  exists w. split; [done|]. by apply get_Ok.
Qed.
End LabeledFields.

(** ** The label vector and the order of the samples *)

Section LabelVector.
Context `{Sampling}.
Implicit Types (self : ROIHeads).
Local Open Scope Z_scope.

(** X6: the class a proposal gets before sampling: [-1] when the matcher says
    ignore, [num_classes] when it says background, and otherwise the class
    of the target it is matched to. *)
Theorem resolve_classes_spec self (mi ml gt_classes resolved : list Z) :
  resolve_classes self mi ml gt_classes = Ok resolved →
  length resolved = length mi
  ∧ length ml = length mi
  ∧ ∀ (i : nat) m l,
      mi !! i = Some m → ml !! i = Some l →
      ∃ g, Tensor.get gt_classes m = Ok g
           ∧ resolved !! i
             = Some (if l =? -1 then -1
                     else if l =? 0 then num_classes self else g).
Proof.
  unfold resolve_classes. intros Hr.
  apply bind_Ok in Hr as (sel & Hsel & Hr).
  apply bind_Ok in Hr as (bg & Hbg & Hr).
  apply masked_fill_Ok in Hbg as [Hlen1 ->].
  apply masked_fill_Ok in Hr as [Hlen2 ->].
  pose proof (index_select_length _ _ _ Hsel) as Hlen.
  unfold Tensor.eq_scalar in *. rewrite !length_fmap in *.
  rewrite !length_zip_with, !length_fmap in *.
  split; [lia|]. split; [lia|].
  intros i m l Hm Hl.
  destruct (for_each_lookup _ _ _ _ _ Hsel Hm) as (g & Hg & Hget).
  exists g. split; [done|].
  rewrite !lookup_zip_with, !list_lookup_fmap, Hl, Hg. cbn.
  destruct (l =? -1); [done|]. by destruct (l =? 0).
Qed.

(** X7: the samples come foreground first: the returned labels are those of
    the sampled positives, each a class below [num_classes], followed by
    those of the sampled negatives, each [num_classes]. *)
Theorem sampled_foreground_first `{!SamplingContract} self
    (mi ml gt_classes : list Z) (c : Z) (idxs labels : list Z) :
  _sample_proposals self mi ml gt_classes c = Ok (idxs, labels) →
  ∃ k : nat,
    (k ≤ length labels)%nat
    ∧ Forall (fun l => 0 ≤ l < num_classes self) (take k labels)
    ∧ Forall (fun l => l = num_classes self) (drop k labels).
Proof.
  intros (classes & _ & Hidx & Hsel)%sample_proposals_Ok.
  destruct (subsample_labels classes (batch_size_per_image self)
              (positive_sample_fraction self) (num_classes self))
    as [fg bg] eqn:Hsub. cbn in Hidx. subst idxs.
  unfold Tensor.index_select in Hsel. rewrite for_each_app in Hsel.
  apply bind_Ok in Hsel as (l1 & Hfg & Hsel).
  apply bind_Ok in Hsel as (l2 & Hbg & [= <-]).
  exists (length l1). rewrite take_app_length, drop_app_length, length_app.
  split; [lia|]. split.
  - apply Forall_lookup. intros j l Hl.
    destruct (for_each_lookup_r _ _ _ _ _ Hfg Hl) as (i & Hi & Hget).
    apply list_elem_of_lookup_2 in Hi.
    destruct (sampled_positive classes (batch_size_per_image self)
                (positive_sample_fraction self) (num_classes self) i)
      as [Hi0 (l' & Hl' & Hrange)]; [by rewrite Hsub|].
    rewrite (get_nonneg _ _ _ Hi0 Hl') in Hget. by injection Hget as <-.
  - apply Forall_lookup. intros j l Hl.
    destruct (for_each_lookup_r _ _ _ _ _ Hbg Hl) as (i & Hi & Hget).
    apply list_elem_of_lookup_2 in Hi.
    destruct (sampled_negative classes (batch_size_per_image self)
                (positive_sample_fraction self) (num_classes self) i)
      as [Hi0 Hl']; [by rewrite Hsub|].
    rewrite (get_nonneg _ _ _ Hi0 Hl') in Hget. by injection Hget as <-.
Qed.
End LabelVector.

Section BatchLabeling.
Context `{Sampling} `{Matching} `{GtAugment}.

(** X8: the labeler pairs proposals and targets image by image and stops at
    the shorter list: it returns one labeled set per pair, in order, and
    it returns at all only if every target set has a [gt_boxes] field. *)
Theorem label_and_sample_pairs (self : ROIHeads)
    (proposals targets outs : list Instances) (c : Z) :
  label_and_sample_proposals self proposals targets c = Ok outs →
  ∃ gt_boxes augmented,
    for_each (fun x => Inst.get x "gt_boxes") targets = Ok gt_boxes
    ∧ augmented = (if proposal_append_gt self
                   then add_ground_truth_to_proposals gt_boxes proposals
                   else proposals)
    ∧ length outs = min (length augmented) (length targets)
    ∧ ∀ i o, outs !! i = Some o →
        ∃ p t, augmented !! i = Some p ∧ targets !! i = Some t
               ∧ label_image self c p t = Ok o.
Proof.
  unfold label_and_sample_proposals. intros Hl.
  apply bind_Ok in Hl as (gt_boxes & Hgt & Hl).
  eexists gt_boxes, _. split; [done|]. split; [done|]. split.
  - apply for_each_length in Hl. by rewrite Hl, length_zip_with.
  - intros i o Ho.
    destruct (for_each_lookup_r _ _ _ _ _ Hl Ho) as ([p t] & Hpt & Himg).
    apply lookup_zip_with_Some in Hpt as (p' & t' & [= -> ->] & Hp & Ht).
    eauto.
Qed.
End BatchLabeling.

(** ** When the constructors succeed *)

Lemma remove_dups_singleton (l : list Z) :
  length (remove_dups l) = 1%nat ↔ ∃ c, l ≠ [] ∧ Forall (fun x => x = c) l.
Proof.
  split.
  - intros Hlen. destruct (remove_dups l) as [|c [|]] eqn:Hdups; try done.
    exists c. split.
    + intros ->. done.
    + apply Forall_forall. intros x Hx.
      apply elem_of_remove_dups in Hx. rewrite Hdups in Hx.
      by apply list_elem_of_singleton in Hx.
  - intros (c & Hne & Hall).
    pose proof (NoDup_remove_dups l) as Hnodup.
    assert (Forall (fun x => x = c) (remove_dups l)) as Hall'.
    { apply Forall_forall. intros x Hx.
      apply (proj1 (elem_of_remove_dups _ _)) in Hx.
      exact (proj1 (Forall_forall _ _) Hall x Hx). }
    destruct (remove_dups l) as [|x [|y r]] eqn:Hdups; [|done|].
    + destruct l as [|z l]; [done|].
      assert (z ∈ remove_dups (z :: l)) as Hz
        by (apply elem_of_remove_dups; left).
      rewrite Hdups in Hz. by apply elem_of_nil in Hz.
    + apply Forall_cons in Hall' as [-> Hall'].
      apply Forall_cons in Hall' as [-> _].
      apply NoDup_cons in Hnodup as [Hin _]. exfalso. apply Hin. left.
Qed.

Lemma init_box_head_Ok (cfg : Cfg) (input_shape : gmap string ShapeSpec) :
  is_Ok (_init_box_head cfg input_shape) = true ↔ usable_levels cfg input_shape.
Proof.
  unfold _init_box_head, usable_levels. split.
  - intros [c0 Hok]%Ok_of_is_Ok.
    apply bind_Ok in Hok as (pooler_scales & Hsc & Hok).
    apply bind_Ok in Hok as (in_channels & Hch & Hok).
    apply bind_Ok in Hok as ([] & Hlen & _).
    destruct (bool_decide (length (remove_dups in_channels) = 1%nat))
      eqn:Hdups; [|done].
    clear Hlen. rename Hdups into Hlen.
    apply bool_decide_eq_true, remove_dups_singleton in Hlen
      as (c & Hne & Hall).
    exists c. split.
    + intros Hnil. rewrite Hnil in Hch. by injection Hch as <-.
    + apply Forall_lookup. intros i f Hf.
      destruct (for_each_lookup _ _ _ _ _ Hch Hf) as (c' & Hc' & Hshape).
      destruct (for_each_lookup _ _ _ _ _ Hsc Hf) as (q & _ & Hscale).
      destruct (input_shape !! f) as [s|]; [|done]. injection Hshape as <-.
      exists s. split; [done|]. split.
      * destruct (stride s =? 0)%Z eqn:Hstride; [done|].
        by apply Z.eqb_neq.
      * apply list_elem_of_lookup_2 in Hc'. by eapply Forall_forall in Hall.
  - intros (c & Hne & Hall).
    destruct (for_each_total
                (fun k => match input_shape !! k with
                          | Some s => if (stride s =? 0)%Z
                                      then Raise ZeroDivisionError
                                      else Ok (1 / inject_Z (stride s))%Q
                          | None => Raise (KeyError k)
                          end) (IN_FEATURES cfg)) as [pooler_scales Hsc].
    { eapply Forall_impl; [exact Hall|]. cbn. intros f (s & -> & Hstride & _).
      apply Z.eqb_neq in Hstride. rewrite Hstride. eauto. }
    rewrite Hsc. cbn.
    destruct (for_each_total
                (fun f => match input_shape !! f with
                          | Some s => Ok (channels s)
                          | None => Raise (KeyError f)
                          end) (IN_FEATURES cfg)) as [in_channels Hch].
    { eapply Forall_impl; [exact Hall|]. cbn. intros f (s & -> & _). eauto. }
    rewrite Hch. cbn.
    assert (in_channels ≠ [] ∧ Forall (fun x => x = c) in_channels)
      as [Hne' Hall'].
    { split.
      - intros ->. apply for_each_length in Hch.
        destruct (IN_FEATURES cfg); done.
      - apply Forall_lookup. intros i x Hx.
        destruct (for_each_lookup_r _ _ _ _ _ Hch Hx) as (f & Hf & Hshape).
        apply list_elem_of_lookup_2 in Hf.
        eapply Forall_forall in Hall as (s & Hs & _ & Hc); [|done].
        rewrite Hs in Hshape. by injection Hshape as <-. }
    rewrite bool_decide_true by (apply remove_dups_singleton; eauto). cbn.
    by destruct in_channels.
Qed.

Section ConstructorSuccess.
Context `{Modules}.

(** X9: construction succeeds exactly when the named feature levels exist,
    none with stride zero, and with one common channel count and, for the
    triple-branch head, refinement is not switched off without
    [branch_guidance] being on; a first level of stride zero makes both
    constructors raise [ZeroDivisionError]. *)
Theorem construction_succeeds_iff (cfg : Cfg)
    (input_shape : gmap string ShapeSpec) :
  (is_Ok (StandardROIHeads_init cfg input_shape) = true
   ↔ usable_levels cfg input_shape)
  ∧ (is_Ok (TripleBranchROIHeads_init cfg input_shape) = true
     ↔ usable_levels cfg input_shape
       ∧ (REFINEMENT cfg = Some false → BRANCH_GUIDANCE cfg = Some true))
  ∧ (∀ f rest s,
       IN_FEATURES cfg = f :: rest → input_shape !! f = Some s →
       stride s = 0%Z →
       StandardROIHeads_init cfg input_shape = Raise ZeroDivisionError
       ∧ TripleBranchROIHeads_init cfg input_shape = Raise ZeroDivisionError).
Proof.
  split; [|split].
  - rewrite <- init_box_head_Ok. unfold StandardROIHeads_init.
    by destruct (_init_box_head cfg input_shape).
  - rewrite <- init_box_head_Ok. unfold TripleBranchROIHeads_init.
    destruct (_init_box_head cfg input_shape) as [c|e]; cbn; [|by intuition].
    destruct (REFINEMENT cfg) as [[]|]; cbn; try by intuition.
    destruct (BRANCH_GUIDANCE cfg) as [[]|]; cbn; split; try done.
    + intros [_ Hg]. by specialize (Hg eq_refl).
    + intros [_ Hg]. by specialize (Hg eq_refl).
  - intros f rest s Hfeatures Hshape Hstride.
    assert (_init_box_head cfg input_shape = Raise ZeroDivisionError) as Hbox.
    { unfold _init_box_head. rewrite Hfeatures. cbn.
      by rewrite Hshape, Hstride. }
    unfold StandardROIHeads_init, TripleBranchROIHeads_init.
    by rewrite Hbox.
Qed.
End ConstructorSuccess.

(** ** The routing of the features *)

Section Routing.
Context `{Modules} `{Sampling} `{Matching} `{GtAugment}.

Lemma forward_heads_train_routing self features unlabeled0 labeled L :
  forward_heads_train self features unlabeled0 labeled = Ok L →
  mask_features_for_over_nonover_branches L
  = (if branch_guidance self
     then cat [mask_features L;
               (whole_head_train (mask_features L) (selected_proposals L)
                  false).2]
     else if heads_attention self
          then tmul (mask_features L)
                 (whole_head_train (mask_features L) (selected_proposals L)
                    false).2
          else mask_features L)
  ∧ (∃ over_in nonover_in,
       (if branch_guidance self
        then mask_features_for_over_branches L = Some over_in
             ∧ mask_features_for_nonover_branches L = Some nonover_in
        else over_in = mask_features_for_over_nonover_branches L
             ∧ nonover_in = mask_features_for_over_nonover_branches L)
       ∧ overlapping_head_train over_in (selected_proposals L)
         = (triple_branch_overlapping_mask_loss L,
            triple_branch_overlapping_mask_logits L,
            triple_branch_overlapping_mask_inner_feature L)
       ∧ nonoverlapping_head_train nonover_in (selected_proposals L)
         = (triple_branch_nonoverlapping_mask_loss L,
            triple_branch_nonoverlapping_mask_logits L,
            triple_branch_nonoverlapping_mask_inner_feature L))
  ∧ (if refinement self
     then ∃ whole_in guiding_layers,
            (whole_in, guiding_layers)
            = (if pure_branch self then (mask_features L, false)
               else (cat [mask_features L;
                          triple_branch_overlapping_mask_inner_feature L;
                          triple_branch_nonoverlapping_mask_inner_feature L],
                     true))
            ∧ triple_branch_whole_mask_logits L
              = Some (whole_head_train whole_in (selected_proposals L)
                        guiding_layers).1.2
     else triple_branch_whole_mask_logits L = None
          ∧ triple_branch_whole_mask_loss L = None).
Proof.
  intros HL. unfold forward_heads_train in HL.
  peel HL. injection HL as <-. cbn.
  destruct (branch_guidance self), (heads_attention self);
    destruct (refinement self), (pure_branch self), unlabeled0;
    cbn in *; peel_all; simplify_eq; cbn;
    (split; [by repeat match goal with
                    | Hw : whole_head_train _ _ _ = _ |- _ => rewrite Hw
                    end|]);
    (split; [eexists _, _; split; [done|]; split; done|]);
    try done;
    eexists _, _; (split; [done|]);
    by repeat match goal with
         | Hw : whole_head_train _ _ _ = _ |- _ => rewrite Hw
         end.
Qed.

End Routing.

(** ** Inference *)

Section Inference.
Context `{Modules} `{Sampling} `{Matching} `{GtAugment}.

Lemma given_boxes_mask_on self training features instances I :
  forward_with_given_boxes_locals self training features instances = Ok I →
  mask_on self = true.
Proof.
  intros HI. unfold forward_with_given_boxes_locals in HI. peel HI.
  unfold the_mask_pooler in *. by destruct (mask_on self).
Qed.

Lemma given_boxes_refinement_off self training features instances I :
  forward_with_given_boxes_locals self training features instances = Ok I →
  refinement self = false → inf_whole_mask_logits I = None.
Proof.
  intros HI Hoff. unfold forward_with_given_boxes_locals in HI.
  rewrite Hoff in HI. peel HI. injection HI as <-. cbn.
  destruct (branch_guidance self), (heads_attention self);
    cbn in *; peel_all; by simplify_eq.
Qed.


(** X12: inference returns no losses and never looks at the targets. *)
Theorem inference_ignores_targets self features input targets r :
  forward self false features input targets = Ok r →
  ret_losses r = ∅
  ∧ ret_selected_proposals r = None
  ∧ (rpn_attention_tb self = false ↔ ret_whole_mask_logits r = None)
  ∧ ∀ other_targets,
      forward self false features input other_targets = Ok r.
Proof.
  intros Hr. split; [|split; [|split]]; [| | |by intros ?];
    unfold forward in Hr; peel Hr;
    destruct (rpn_attention_tb self); peel Hr; by injection Hr as <-.
Qed.
End Inference.

(** ** Configurations under which the router cannot return *)

Section NeverReturns.
Context `{Modules} `{Sampling} `{Matching} `{GtAugment}.

Lemma forward_Ok_mask_on self training features input targets r :
  forward self training features input targets = Ok r → mask_on self = true.
Proof.
  destruct training.
  - intros (L & HL & _)%forward_train_Ok.
    destruct (forward_train_locals_Ok _ _ _ _ _ HL) as [labeled Hh].
    unfold forward_heads_train in Hh. peel Hh.
    unfold the_mask_pooler in *. by destruct (mask_on self).
  - unfold forward. intros Hr. peel Hr.
    match goal with
    | HI : forward_with_given_boxes_locals _ _ _ _ = Ok _ |- _ =>
        by apply given_boxes_mask_on in HI
    end.
Qed.

(** X13: without the mask heads ([MASK_ON] off) the constructor sets no mask
    pooler, and no invocation of [forward] returns. *)
Theorem mask_off_never_returns self training features input targets :
  mask_on self = false →
  is_Ok (forward self training features input targets) = false.
Proof.
  intros Hoff.
  destruct (forward self training features input targets) as [r|e] eqn:Hr;
    [|done].
  apply forward_Ok_mask_on in Hr. congruence.
Qed.

(** X14: with [consis_loss] on, the only mode under which a training invocation
    returns is ["MX"], and it needs the refinement branch. *)
Theorem consistency_needs_mx_and_refinement self features input targets r :
  forward self true features input targets = Ok r →
  consis_loss self = true →
  consis_loss_mode self = "MX" ∧ refinement self = true.
Proof.
  intros (L & HL & _)%forward_train_Ok Hconsis.
  destruct (forward_train_locals_Ok _ _ _ _ _ HL) as [labeled Hh].
  destruct (decide (consis_loss_mode self = "MX")) as [Hmode|Hmode].
  - split; [done|].
    by destruct (forward_heads_train_mx _ _ _ _ _ Hh Hconsis Hmode)
      as (? & ? & ? & ? & _).
  - exfalso. unfold forward_heads_train in Hh.
    rewrite Hconsis, bool_decide_false in Hh by done. by peel_all.
Qed.

(** X15: with refinement off the whole-mask logits are never bound: no
    invocation returns when [rpn_attention_tb] is on, and no training
    invocation returns on an image batch whose first image has no target
    (where [branch_guidance], which the constructor then requires, reads
    them for its consistency term). *)
Theorem refinement_off_unbound_logits self features input targets :
  refinement self = false →
  (rpn_attention_tb self = true →
   ∀ training, is_Ok (forward self training features input targets) = false)
  ∧ (branch_guidance self = true →
     ∀ t rest, targets = t :: rest → Inst.len t = Ok 0%nat →
       is_Ok (forward self true features input targets) = false).
Proof.
  intros Hoff. split.
  - intros Hrpn training.
    destruct (forward self training features input targets) as [r|e] eqn:Hr;
      [exfalso|done].
    unfold forward in Hr. rewrite Hrpn in Hr. destruct training.
    + apply bind_Ok in Hr as (L & HL & Hr).
      apply bind_Ok in Hr as (logits & Hlogits%read_Ok & _).
      destruct (forward_train_locals_Ok _ _ _ _ _ HL) as [labeled Hh].
      apply forward_heads_train_routing in Hh as (_ & _ & Href).
      rewrite Hoff in Href. destruct Href as [Href _]. congruence.
    + peel Hr.
      match goal with
      | HI : forward_with_given_boxes_locals _ _ _ _ = Ok _ |- _ =>
          apply given_boxes_refinement_off in HI; [|done]
      end.
      match goal with
      | Hread : read _ _ = Ok _ |- _ => apply read_Ok in Hread
      end.
      congruence.
  - intros Hguidance t rest Htargets Hlen.
    destruct (forward self true features input targets) as [r|e] eqn:Hr;
      [exfalso|done].
    apply forward_train_Ok in Hr as (L & HL & _).
    unfold forward_train_locals in HL.
    rewrite (prepare_proposals_unlabeled _ _ _ _ _ Htargets Hlen) in HL.
    cbn in HL. unfold forward_heads_train in HL.
    rewrite Hoff, Hguidance in HL. cbn in HL. by peel_all.
Qed.
End NeverReturns.

(** ** The keys of the returned losses *)

Section LossKeys.
Context `{Modules} `{Sampling} `{Matching} `{GtAugment}.


#[local] Set Warnings "-clear-no-such-hyp".


End LossKeys.

(** ** The further properties on concrete inputs *)

Section LabelerChecks.
Import Fixture Inputs.
Local Open Scope Z_scope.

Lemma select_foreground_classes_witness :
  ∃ fg masks q,
    select_foreground_proposals [labeled_image] 3 = Ok (fg, masks)
    ∧ length fg = 1%nat
    ∧ masks !! 0%nat = Some [true; false; false]
    ∧ fg !! 0%nat = Some q
    ∧ Inst.get q "gt_classes" = Ok (IntTensor [2]).
Proof.
  destruct (select_foreground_proposals [labeled_image] 3)
    as [[fg masks]|] eqn:Hrun; [|vm_compute in Hrun; discriminate].
  destruct (select_foreground_classes [labeled_image] 3 fg masks Hrun)
    as (Hfg & _ & Hrows).
  destruct (Hrows 0%nat labeled_image eq_refl)
    as (classes & q & Hc & Hm & Hq & _ & Hget & _).
  vm_compute in Hc. injection Hc as <-.
  exists fg, masks, q. split; [reflexivity|]. split; [exact Hfg|].
  split; [exact Hm|]. split; [exact Hq|].
  etrans; [exact Hget|]. vm_compute. reflexivity.
Defined.

Lemma empty_target_no_foreground_witness :
  ∃ o q k,
    label_image roi_heads 0 image_proposals no_targets = Ok o
    ∧ select_foreground_proposals [o] 3 = Ok ([q], [replicate k false])
    ∧ Inst.len o = Ok k
    ∧ inst_wf q 0.
Proof.
  destruct (label_image roi_heads 0 image_proposals no_targets) as [o|]
    eqn:Hrun; [|vm_compute in Hrun; discriminate].
  destruct (@empty_target_no_foreground first_come_sampling
              (spec_subsample_labels_contract _)
              threshold_matching (spec_proposal_matcher_contract _ _)
              roi_heads 0 image_proposals no_targets o) as (q & k & Hsel).
  - repeat constructor.
  - exact Hrun.
  - exists o, q, k. split; [reflexivity | exact Hsel].
Defined.

Lemma labeled_proposals_frame_witness :
  ∃ o,
    label_image roi_heads 0 image_proposals image_targets = Ok o
    ∧ inst_wf o 3
    ∧ Inst.get o "gt_classes" = Ok (IntTensor [2; 2; 3])
    ∧ Inst.get o "objectness_logits" = Ok (FloatTensor [1; 1; 1]%Q).
Proof.
  destruct (label_image roi_heads 0 image_proposals image_targets) as [o|]
    eqn:Hrun; [|vm_compute in Hrun; discriminate].
  destruct (@labeled_proposals_frame first_come_sampling threshold_matching
              roi_heads 0 image_proposals image_targets o Hrun)
    as (tb & pb & tc & idxs & labels & Htb & Hpb & Htc & Hs & Hwf & Hget
        & Hframe).
  vm_compute in Htb. injection Htb as <-.
  vm_compute in Hpb. injection Hpb as <-.
  vm_compute in Htc. injection Htc as <-.
  vm_compute in Hs. injection Hs as <- <-.
  exists o. split; [reflexivity|]. split; [exact Hwf|]. split; [exact Hget|].
  destruct (Hframe "objectness_logits" (FloatTensor [1; 1; 1]%Q))
    as (w & Hw & Hlogits); [reflexivity | reflexivity |].
  vm_compute in Hw. injection Hw as <-. exact Hlogits.
Defined.

Lemma matched_target_fields_witness :
  ∃ o,
    label_image roi_heads 0 image_proposals image_targets = Ok o
    ∧ Inst.get o "gt_boxes"
      = Ok (Boxes [box 20 20 40 40; box 0 0 10 10; box 0 0 10 10]).
Proof.
  destruct (label_image roi_heads 0 image_proposals image_targets) as [o|]
    eqn:Hrun; [|vm_compute in Hrun; discriminate].
  destruct (@matched_target_fields first_come_sampling threshold_matching
              roi_heads 0 image_proposals image_targets o 1%nat Hrun eq_refl)
    as (tb & pb & tc & idxs & labels & sampled & Htb & Hpb & Htc & Hs & Hsel
        & Hfields).
  vm_compute in Htb. injection Htb as <-.
  vm_compute in Hpb. injection Hpb as <-.
  vm_compute in Htc. injection Htc as <-.
  vm_compute in Hs. injection Hs as <- <-.
  vm_compute in Hsel. injection Hsel as <-.
  exists o. split; [reflexivity|].
  destruct (Hfields "gt_boxes" (Boxes [box 0 0 10 10; box 20 20 40 40]))
    as (w & Hw & Hboxes);
    [reflexivity | discriminate | reflexivity | reflexivity |].
  vm_compute in Hw. injection Hw as <-. exact Hboxes.
Defined.

Lemma resolve_classes_spec_witness :
  ∃ resolved,
    resolve_classes roi_heads [1; 0; 0] [1; -1; 0] [0; 2] = Ok resolved
    ∧ length resolved = 3%nat
    ∧ resolved !! 0%nat = Some 2
    ∧ resolved !! 1%nat = Some (-1)
    ∧ resolved !! 2%nat = Some 3.
Proof.
  destruct (resolve_classes roi_heads [1; 0; 0] [1; -1; 0] [0; 2])
    as [resolved|] eqn:Hrun; [|vm_compute in Hrun; discriminate].
  destruct (resolve_classes_spec roi_heads
              [1; 0; 0] [1; -1; 0] [0; 2] resolved Hrun)
    as (Hlen & _ & Hrows).
  exists resolved. split; [reflexivity|]. split; [exact Hlen|].
  destruct (Hrows 0%nat 1 1 eq_refl eq_refl) as (g0 & Hg0 & H0).
  destruct (Hrows 1%nat 0 (-1) eq_refl eq_refl) as (g1 & Hg1 & H1).
  destruct (Hrows 2%nat 0 0 eq_refl eq_refl) as (g2 & Hg2 & H2).
  vm_compute in Hg0. injection Hg0 as <-.
  split; [exact H0|]. split; [exact H1 | exact H2].
Defined.

Lemma sampled_foreground_first_witness :
  ∃ idxs labels k,
    _sample_proposals roi_heads [1; 0; 0] [1; 1; 0] [0; 2] (-1)
    = Ok (idxs, labels)
    ∧ (k ≤ length labels)%nat
    ∧ Forall (fun l => 0 ≤ l < 3) (take k labels)
    ∧ Forall (fun l => l = 3) (drop k labels).
Proof.
  destruct (_sample_proposals roi_heads [1; 0; 0] [1; 1; 0] [0; 2] (-1))
    as [[idxs labels]|] eqn:Hrun; [|vm_compute in Hrun; discriminate].
  destruct (@sampled_foreground_first first_come_sampling
              (spec_subsample_labels_contract _) roi_heads
              [1; 0; 0] [1; 1; 0] [0; 2] (-1) idxs labels Hrun)
    as (k & Hk).
  exists idxs, labels, k. split; [reflexivity | exact Hk].
Defined.

Lemma label_and_sample_pairs_witness :
  ∃ outs,
    label_and_sample_proposals roi_heads
      [image_proposals; image_proposals] [image_targets] 0 = Ok outs
    ∧ length outs = 1%nat
    ∧ ∀ i o, outs !! i = Some o →
        ∃ p t, [image_proposals; image_proposals] !! i = Some p
               ∧ [image_targets] !! i = Some t
               ∧ label_image roi_heads 0 p t = Ok o.
Proof.
  destruct (label_and_sample_proposals roi_heads
              [image_proposals; image_proposals] [image_targets] 0)
    as [outs|] eqn:Hrun; [|vm_compute in Hrun; discriminate].
  destruct (@label_and_sample_pairs first_come_sampling threshold_matching
              spec_gt_augment roi_heads [image_proposals; image_proposals]
              [image_targets] outs 0 Hrun)
    as (gt_boxes & augmented & _ & -> & Hlen & Hpairs).
  exists outs. split; [reflexivity|]. split; [exact Hlen | exact Hpairs].
Defined.
End LabelerChecks.

Section RouterChecks.
Import Fixture Inputs.
#[local] Existing Instances backend modules.



Lemma inference_ignores_targets_witness :
  ∃ r,
    forward (router false false false false true false) false features
      [image_proposals] [] = Ok r
    ∧ ret_losses r = ∅
    ∧ ret_whole_mask_logits r = None
    ∧ forward (router false false false false true false) false features
        [image_proposals] [image_targets] = Ok r.
Proof.
  pose (self := router false false false false true false).
  destruct (Ok_of_is_Ok (forward self false features [image_proposals] []))
    as [r Hr]; [vm_compute; reflexivity|].
  destruct (inference_ignores_targets self features [image_proposals] [] r Hr)
    as (Hlosses & _ & Hlogits & Hany).
  exists r. split; [exact Hr|]. split; [exact Hlosses|].
  split; [apply Hlogits; reflexivity | apply Hany].
Defined.

Lemma mask_off_never_returns_witness :
  is_Ok (forward box_only_router true features [image_proposals]
           [image_targets]) = false.
Proof.
  apply (mask_off_never_returns box_only_router true features
           [image_proposals] [image_targets]).
  reflexivity.
Defined.

Lemma consistency_needs_mx_and_refinement_witness :
  ∃ r,
    forward (router false false false false true true) true features
      [image_proposals] [image_targets] = Ok r
    ∧ consis_loss_mode (router false false false false true true) = "MX"
    ∧ refinement (router false false false false true true) = true.
Proof.
  pose (self := router false false false false true true).
  destruct (Ok_of_is_Ok
              (forward self true features [image_proposals] [image_targets]))
    as [r Hr]; [vm_compute; reflexivity|].
  exists r. split; [exact Hr|].
  exact (consistency_needs_mx_and_refinement self features [image_proposals]
           [image_targets] r Hr eq_refl).
Defined.

Lemma refinement_off_unbound_logits_witness :
  is_Ok (forward (router false false true false false false) true features
           [image_proposals] [no_targets]) = false.
Proof.
  destruct (refinement_off_unbound_logits
              (router false false true false false false) features
              [image_proposals] [no_targets] eq_refl) as [_ Hunlabeled].
  exact (Hunlabeled eq_refl no_targets [] eq_refl eq_refl).
Defined.


End RouterChecks.
